(** * The OpenCL BiCGSTAB backend of opm-simulators

    A shallow embedding of
    [opm/simulators/linalg/bda/opencl/openclSolverBackend.cpp]:
    the constructor, the host/device transfers, the preconditioned
    BiCGSTAB loop [gpu_pbicgstab] and the driver [solve_system].

    Conventions.
    - [double] values are an abstract scalar type [R] with the operations
      of the class [Scalar]; no algebraic law is assumed of them unless a
      theorem states it.
    - the loop counter [float it] only takes multiples of 0.5; it is
      represented by the integer [2 * it] (type [half]) with the rounding
      of binary32 written out.
    - every call that crosses the device API is recorded in a trace of
      [event]s; a call through the C++ bindings may raise [cl::Error],
      which the oracle [cl_fault] decides from the history of calls.
    - log output and timers are not modelled. *)

From Stdlib Require Import ZArith NArith List String Ascii Bool Lia.
From Stdlib Require DecimalString.
Import ListNotations.
Local Open Scope Z_scope.

Set Implicit Arguments.

(** ** Scalars: the arithmetic of [double] *)

Class Scalar (R : Type) := {
  r0 : R;
  r1 : R;
  radd : R -> R -> R;
  rsub : R -> R -> R;
  rmul : R -> R -> R;
  rdiv : R -> R -> R;
  ropp : R -> R;
  rltb : R -> R -> bool;
  (** [pow(x, 1.0 / it)], the counter given in half steps *)
  rpow_inv : R -> Z -> R
}.

(** ** Strings *)

Definition nl : string := String (ascii_of_nat 10) EmptyString.

Definition cat (a b : string) : string := String.append a b.

Infix "+++" := cat (right associativity, at level 60).

(** [operator<<] on a [cl_int]: its decimal representation. *)
Definition show_int (z : Z) : string :=
  DecimalString.NilZero.string_of_int (Z.to_int z).

(** ** Exceptions *)

(** [cl::Error]: [what()] and [err()]. *)
Record cl_Error := { cl_what : string; cl_err : Z }.

(** The two exception classes the file throws and catches. The argument
    of [logic_error] is the message handed to [OPM_THROW]. *)
Inductive exn :=
| logic_error (msg : string)
| cl_error (e : cl_Error).

(** ** The device API boundary *)

Inductive platform_info :=
| CL_PLATFORM_NAME | CL_PLATFORM_VENDOR | CL_PLATFORM_VERSION
| CL_PLATFORM_PROFILE | CL_PLATFORM_EXTENSIONS.

Inductive device_info :=
| CL_DEVICE_NAME | CL_DEVICE_VENDOR | CL_DRIVER_VERSION
| CL_DEVICE_BUILT_IN_KERNELS | CL_DEVICE_PROFILE
| CL_DEVICE_OPENCL_C_VERSION | CL_DEVICE_EXTENSIONS
| CL_DEVICE_MAX_WORK_ITEM_SIZES | CL_DEVICE_PARTITION_PROPERTIES
| CL_DEVICE_PARTITION_TYPE | CL_DEVICE_VERSION
| CL_DEVICE_LOCAL_MEM_SIZE | CL_DEVICE_GLOBAL_MEM_SIZE
| CL_DEVICE_MAX_COMPUTE_UNITS | CL_DEVICE_MAX_MEM_ALLOC_SIZE
| CL_DEVICE_MAX_WORK_GROUP_SIZE.

(** The device buffers of the class, by name. *)
Inductive buf :=
| d_x | d_b | d_rb | d_r | d_rw | d_p | d_pw | d_s | d_t | d_v | d_tmp
| d_Avals | d_Acols | d_Arows | d_toOrder.

Definition buf_eqb (a b : buf) : bool :=
  match a, b with
  | d_x, d_x | d_b, d_b | d_rb, d_rb | d_r, d_r | d_rw, d_rw | d_p, d_p
  | d_pw, d_pw | d_s, d_s | d_t, d_t | d_v, d_v | d_tmp, d_tmp
  | d_Avals, d_Avals | d_Acols, d_Acols | d_Arows, d_Arows
  | d_toOrder, d_toOrder => true
  | _, _ => false
  end.

(** One call across the boundary. The indices of the enumeration calls
    are positions in the vectors [platforms] and [devices]. *)
Inductive event :=
(* enumeration and set-up, constructor *)
| PlatformGet
| PlatformGetInfo (i : nat) (key : platform_info)
| GetDevices (platform : nat)
| DeviceGetInfo (i : nat) (key : device_info)
| clGetDeviceInfo (i : nat) (key : device_info)
| CreateContext
| CreateCommandQueue
| KernelsInit
(* buffers and transfers *)
| CreateBuffer (b : buf)
| WriteBuffer (b : buf)
| FillBuffer (b : buf)
| CopyBuffer (src dst : buf)
| ReadBuffer (b : buf)
| WaitForEvents
(* kernels of OpenclKernels *)
| Kdot (in1 in2 : buf)
| Knorm (inp : buf)
| Kcustom (p v r : buf)
| Kaxpy (inp out : buf)
| Kspmv (inp out : buf)
(* collaborators that launch kernels of their own *)
| PrecAnalyze (ok : bool)
| PrecCreate (ok : bool)
| PrecApply (inp out : buf)
| WellApply (inp out : buf).

(** A device as the enumeration reports it (its [cl_device_id]). *)
Record Device := { device_id : Z }.

Record Platform := { platform_devices : list Device }.

(** ** The monad of the embedding

    A computation reads the history of calls, transforms the object
    state [S], emits the calls it makes and ends in an [outcome]. *)

Inductive stuck_reason := OutOfFuel | NullDereference.

Inductive outcome (A : Type) :=
| Ret (a : A)
| Throw (e : exn)
| Stuck (why : stuck_reason).

Arguments Throw {A} e.
Arguments Stuck {A} why.

Record run (S A : Type) := Run {
  final : S;
  emitted : list event;
  result : outcome A
}.

Definition M (S A : Type) := list event -> S -> run S A.

Definition ret {S A} (a : A) : M S A :=
  fun _ s => Run s [] (Ret a).

Definition bind {S A B} (m : M S A) (k : A -> M S B) : M S B :=
  fun h s =>
    let r := m h s in
    match result r with
    | Ret a =>
        let r' := k a (h ++ emitted r)%list (final r) in
        Run (final r') (emitted r ++ emitted r')%list (result r')
    | Throw e => Run (final r) (emitted r) (Throw e)
    | Stuck w => Run (final r) (emitted r) (Stuck w)
    end.

Declare Scope monad_scope.
Delimit Scope monad_scope with monad.

Notation "x <- m ;; k" := (bind m (fun x => k))
  (at level 61, m at next level, right associativity) : monad_scope.
Notation "m ;; k" := (bind m (fun _ => k))
  (at level 61, right associativity) : monad_scope.

Local Open Scope monad_scope.

Definition gets {S A} (f : S -> A) : M S A :=
  fun _ s => Run s [] (Ret (f s)).

Definition modify {S} (f : S -> S) : M S unit :=
  fun _ s => Run (f s) [] (Ret tt).

Definition throw {S A} (e : exn) : M S A :=
  fun _ s => Run s [] (Throw e).

Definition stuck {S A} (w : stuck_reason) : M S A :=
  fun _ s => Run s [] (Stuck w).

(** [try { m } catch (...) { handler }]: [handler e] is [None] for an
    exception no clause matches. *)
Definition try_catch {S A} (m : M S A) (handler : exn -> option (M S A)) : M S A :=
  fun h s =>
    let r := m h s in
    match result r with
    | Throw e =>
        match handler e with
        | Some c =>
            let r' := c (h ++ emitted r)%list (final r) in
            Run (final r') (emitted r ++ emitted r')%list (result r')
        | None => r
        end
    | _ => r
    end.

Fixpoint for_each {S A} (l : list A) (body : A -> M S unit) : M S unit :=
  match l with
  | [] => ret tt
  | a :: l' => body a ;; for_each l' body
  end.

Definition when {S} (c : bool) (m : M S unit) : M S unit :=
  if c then m else ret tt.

(** ** What the file takes from its surroundings *)

(** The OpenCL installation: the platforms [cl::Platform::get] reports,
    which calls of the C++ bindings raise [cl::Error] (decided from the
    calls made so far and the call being made), and [getErrorString] of
    opencl.hpp. *)
Class OpenCL := {
  cl_platforms : list Platform;
  cl_fault : list event -> event -> option cl_Error;
  getErrorString : Z -> string
}.

Inductive ILUReorder := LEVEL_SCHEDULING | GRAPH_COLORING | NONE.

Inductive PreconditionerType := BILU0 | CPR | BISAI.

(** The three values of [SolverStatus] the file returns. *)
Inductive SolverStatus :=
| BDA_SOLVER_SUCCESS
| BDA_SOLVER_ANALYSIS_FAILED
| BDA_SOLVER_CREATE_PRECONDITIONER_FAILED.

(** Modelled from the spec: BlockedMatrix.hpp is not among the sources.
    Section 3 of the specification gives the block-CSR container its
    dimensions and its three arrays. *)
Record BlockedMatrix (R : Type) := {
  bm_Nb : Z;
  bm_nnzbs : Z;
  bm_block_size : Z;
  nnzValues : list R;
  colIndices : list Z;
  rowPointers : list Z
}.

Definition set_nnzValues {R} (vals : list R) (m : BlockedMatrix R) : BlockedMatrix R :=
  {| bm_Nb := bm_Nb m; bm_nnzbs := bm_nnzbs m; bm_block_size := bm_block_size m;
     nnzValues := vals; colIndices := colIndices m; rowPointers := rowPointers m |}.

(** The template parameter and the functions of openclKernels.hpp and
    Reorder.hpp whose results the specification leaves to the device:
    the two reductions, the block sparse product (values, columns, rows,
    input, [Nb], [block_size]) and the block permutation of a vector
    ([Nb], vector, order). *)
Class Linalg (R : Type) := {
  block_size : Z;
  dot : list R -> list R -> Z -> R;
  norm : list R -> Z -> R;
  spmv : list R -> list Z -> list Z -> list R -> Z -> Z -> list R;
  reorderBlockedVectorByPattern : Z -> list R -> list Z -> list R
}.

(** The interface [Preconditioner<block_size>]; [P] is the state of the
    object behind the pointer [prec]. A method that changes the object
    returns its new state. *)
Class Preconditioner (R P : Type) := {
  Preconditioner_create : PreconditionerType -> Z -> ILUReorder -> P;
  prec_analyze_matrix : P -> option (BlockedMatrix R) -> bool * P;
  prec_create_preconditioner : P -> option (BlockedMatrix R) -> bool * P;
  prec_apply : P -> list R -> list R;
  prec_getToOrder : P -> list Z;
  prec_getFromOrder : P -> list Z;
  prec_getRMat : P -> option (BlockedMatrix R)
}.

(** Modelled from the spec: openclWellContributions.hpp is not among the
    sources. Section 4.5: [getNumWells] counts the wells, and [apply]
    adds, for each well, its contribution for the input vector into the
    output vector, mapping indices with the permutation it is given when
    reordering is on. [well_contribution reorder toOrder w x y] is the
    output vector [y] after the well [w] has been added. *)
Class WellModel (R W : Type) := {
  well_contribution : bool -> list Z -> W -> list R -> list R -> list R
}.

Record WellContributions (W : Type) := {
  wells : list W;
  wc_reorder : bool;
  wc_h_toOrder : option (list Z)
}.

Definition getNumWells {W} (wc : WellContributions W) : Z :=
  Z.of_nat (List.length (wells wc)).

Definition setReordering {W} (toOrder : option (list Z)) (reorder : bool)
    (wc : WellContributions W) : WellContributions W :=
  {| wells := wells wc; wc_reorder := reorder; wc_h_toOrder := toOrder |}.

Definition WellContributionsOCL_apply {R W} `{WellModel R W}
    (wc : WellContributions W) (x y : list R) (toOrder : list Z) : list R :=
  fold_left (fun out w => well_contribution (wc_reorder wc) toOrder w x out)
            (wells wc) y.

(** ** The solver object *)

(** Which matrix the pointer [rmat] designates: nothing yet, the object
    owned by [mat], or the reordered matrix owned by the preconditioner. *)
Inductive rmat_ref := rmat_null | rmat_mat | rmat_prec.

(** The members of [openclSolverBackend] and of its base [BdaSolver].
    [sN] is the member [N]. [dmem] and [imem] hold the contents of the
    device buffers of doubles and of ints. [rb] is held by value. *)
Record Solver (R P : Type) := {
  verbosity : Z;
  maxit : Z;
  tolerance : R;
  platformID : N;
  deviceID : N;
  sN : Z;
  Nb : Z;
  nnz : Z;
  nnzb : Z;
  initialized : bool;
  analysis_done : bool;
  opencl_ilu_reorder : ILUReorder;
  prec : option P;
  devices : list Device;
  context : option Device;
  queue : option Device;
  err : Z;
  mat : option (BlockedMatrix R);
  rmat : rmat_ref;
  rb : list R;
  toOrder : list Z;
  fromOrder : list Z;
  dmem : buf -> list R;
  imem : buf -> list Z
}.

Definition CL_SUCCESS : Z := 0.

(** ** Assignments to the members *)

Section Members.
Context {R P : Type}.

Definition set_sN (v : Z) (s : Solver R P) : Solver R P :=
  Build_Solver (verbosity s) (maxit s) (tolerance s) (platformID s)
    (deviceID s) v (Nb s) (nnz s) (nnzb s) (initialized s) (analysis_done s)
    (opencl_ilu_reorder s) (prec s) (devices s) (context s) (queue s)
    (err s) (mat s) (rmat s) (rb s) (toOrder s) (fromOrder s) (dmem s)
    (imem s).

Definition set_Nb (v : Z) (s : Solver R P) : Solver R P :=
  Build_Solver (verbosity s) (maxit s) (tolerance s) (platformID s)
    (deviceID s) (sN s) v (nnz s) (nnzb s) (initialized s) (analysis_done s)
    (opencl_ilu_reorder s) (prec s) (devices s) (context s) (queue s)
    (err s) (mat s) (rmat s) (rb s) (toOrder s) (fromOrder s) (dmem s)
    (imem s).

Definition set_nnz (v : Z) (s : Solver R P) : Solver R P :=
  Build_Solver (verbosity s) (maxit s) (tolerance s) (platformID s)
    (deviceID s) (sN s) (Nb s) v (nnzb s) (initialized s) (analysis_done s)
    (opencl_ilu_reorder s) (prec s) (devices s) (context s) (queue s)
    (err s) (mat s) (rmat s) (rb s) (toOrder s) (fromOrder s) (dmem s)
    (imem s).

Definition set_nnzb (v : Z) (s : Solver R P) : Solver R P :=
  Build_Solver (verbosity s) (maxit s) (tolerance s) (platformID s)
    (deviceID s) (sN s) (Nb s) (nnz s) v (initialized s) (analysis_done s)
    (opencl_ilu_reorder s) (prec s) (devices s) (context s) (queue s)
    (err s) (mat s) (rmat s) (rb s) (toOrder s) (fromOrder s) (dmem s)
    (imem s).

Definition set_initialized (v : bool) (s : Solver R P) : Solver R P :=
  Build_Solver (verbosity s) (maxit s) (tolerance s) (platformID s)
    (deviceID s) (sN s) (Nb s) (nnz s) (nnzb s) v (analysis_done s)
    (opencl_ilu_reorder s) (prec s) (devices s) (context s) (queue s)
    (err s) (mat s) (rmat s) (rb s) (toOrder s) (fromOrder s) (dmem s)
    (imem s).

Definition set_analysis_done (v : bool) (s : Solver R P) : Solver R P :=
  Build_Solver (verbosity s) (maxit s) (tolerance s) (platformID s)
    (deviceID s) (sN s) (Nb s) (nnz s) (nnzb s) (initialized s) v
    (opencl_ilu_reorder s) (prec s) (devices s) (context s) (queue s)
    (err s) (mat s) (rmat s) (rb s) (toOrder s) (fromOrder s) (dmem s)
    (imem s).

Definition set_prec (v : option P) (s : Solver R P) : Solver R P :=
  Build_Solver (verbosity s) (maxit s) (tolerance s) (platformID s)
    (deviceID s) (sN s) (Nb s) (nnz s) (nnzb s) (initialized s)
    (analysis_done s) (opencl_ilu_reorder s) v (devices s) (context s)
    (queue s) (err s) (mat s) (rmat s) (rb s) (toOrder s) (fromOrder s)
    (dmem s) (imem s).

Definition set_devices (v : list Device) (s : Solver R P) : Solver R P :=
  Build_Solver (verbosity s) (maxit s) (tolerance s) (platformID s)
    (deviceID s) (sN s) (Nb s) (nnz s) (nnzb s) (initialized s)
    (analysis_done s) (opencl_ilu_reorder s) (prec s) v (context s)
    (queue s) (err s) (mat s) (rmat s) (rb s) (toOrder s) (fromOrder s)
    (dmem s) (imem s).

Definition set_context (v : option Device) (s : Solver R P) : Solver R P :=
  Build_Solver (verbosity s) (maxit s) (tolerance s) (platformID s)
    (deviceID s) (sN s) (Nb s) (nnz s) (nnzb s) (initialized s)
    (analysis_done s) (opencl_ilu_reorder s) (prec s) (devices s) v
    (queue s) (err s) (mat s) (rmat s) (rb s) (toOrder s) (fromOrder s)
    (dmem s) (imem s).

Definition set_queue (v : option Device) (s : Solver R P) : Solver R P :=
  Build_Solver (verbosity s) (maxit s) (tolerance s) (platformID s)
    (deviceID s) (sN s) (Nb s) (nnz s) (nnzb s) (initialized s)
    (analysis_done s) (opencl_ilu_reorder s) (prec s) (devices s)
    (context s) v (err s) (mat s) (rmat s) (rb s) (toOrder s) (fromOrder s)
    (dmem s) (imem s).

Definition set_err (v : Z) (s : Solver R P) : Solver R P :=
  Build_Solver (verbosity s) (maxit s) (tolerance s) (platformID s)
    (deviceID s) (sN s) (Nb s) (nnz s) (nnzb s) (initialized s)
    (analysis_done s) (opencl_ilu_reorder s) (prec s) (devices s)
    (context s) (queue s) v (mat s) (rmat s) (rb s) (toOrder s)
    (fromOrder s) (dmem s) (imem s).

Definition set_mat (v : option (BlockedMatrix R)) (s : Solver R P) : Solver R P :=
  Build_Solver (verbosity s) (maxit s) (tolerance s) (platformID s)
    (deviceID s) (sN s) (Nb s) (nnz s) (nnzb s) (initialized s)
    (analysis_done s) (opencl_ilu_reorder s) (prec s) (devices s)
    (context s) (queue s) (err s) v (rmat s) (rb s) (toOrder s)
    (fromOrder s) (dmem s) (imem s).

Definition set_rmat (v : rmat_ref) (s : Solver R P) : Solver R P :=
  Build_Solver (verbosity s) (maxit s) (tolerance s) (platformID s)
    (deviceID s) (sN s) (Nb s) (nnz s) (nnzb s) (initialized s)
    (analysis_done s) (opencl_ilu_reorder s) (prec s) (devices s)
    (context s) (queue s) (err s) (mat s) v (rb s) (toOrder s) (fromOrder s)
    (dmem s) (imem s).

Definition set_rb (v : list R) (s : Solver R P) : Solver R P :=
  Build_Solver (verbosity s) (maxit s) (tolerance s) (platformID s)
    (deviceID s) (sN s) (Nb s) (nnz s) (nnzb s) (initialized s)
    (analysis_done s) (opencl_ilu_reorder s) (prec s) (devices s)
    (context s) (queue s) (err s) (mat s) (rmat s) v (toOrder s)
    (fromOrder s) (dmem s) (imem s).

Definition set_toOrder (v : list Z) (s : Solver R P) : Solver R P :=
  Build_Solver (verbosity s) (maxit s) (tolerance s) (platformID s)
    (deviceID s) (sN s) (Nb s) (nnz s) (nnzb s) (initialized s)
    (analysis_done s) (opencl_ilu_reorder s) (prec s) (devices s)
    (context s) (queue s) (err s) (mat s) (rmat s) (rb s) v (fromOrder s)
    (dmem s) (imem s).

Definition set_fromOrder (v : list Z) (s : Solver R P) : Solver R P :=
  Build_Solver (verbosity s) (maxit s) (tolerance s) (platformID s)
    (deviceID s) (sN s) (Nb s) (nnz s) (nnzb s) (initialized s)
    (analysis_done s) (opencl_ilu_reorder s) (prec s) (devices s)
    (context s) (queue s) (err s) (mat s) (rmat s) (rb s) (toOrder s) v
    (dmem s) (imem s).

Definition set_dmem (v : buf -> list R) (s : Solver R P) : Solver R P :=
  Build_Solver (verbosity s) (maxit s) (tolerance s) (platformID s)
    (deviceID s) (sN s) (Nb s) (nnz s) (nnzb s) (initialized s)
    (analysis_done s) (opencl_ilu_reorder s) (prec s) (devices s)
    (context s) (queue s) (err s) (mat s) (rmat s) (rb s) (toOrder s)
    (fromOrder s) v (imem s).

Definition set_imem (v : buf -> list Z) (s : Solver R P) : Solver R P :=
  Build_Solver (verbosity s) (maxit s) (tolerance s) (platformID s)
    (deviceID s) (sN s) (Nb s) (nnz s) (nnzb s) (initialized s)
    (analysis_done s) (opencl_ilu_reorder s) (prec s) (devices s)
    (context s) (queue s) (err s) (mat s) (rmat s) (rb s) (toOrder s)
    (fromOrder s) (dmem s) v.

End Members.

(** ** The model of the class *)

Section Model.
Context {R P W : Type} {SR : Scalar R} {LA : Linalg R}
        {PR : Preconditioner R P} {WM : WellModel R W} {CL : OpenCL}.

Local Abbreviation solver := (Solver R P).

(** A call through the C++ bindings: it is recorded, and it raises
    [cl::Error] when the installation says so. *)
Definition issue (e : event) : M solver unit :=
  fun h s =>
    Run s [e] (match cl_fault h e with
               | Some error => Throw (cl_error error)
               | None => Ret tt
               end).

(** A call of the C API: it is recorded; it raises nothing, and the
    status it returns is dropped by the caller. *)
Definition issue_c (e : event) : M solver unit :=
  fun _ s => Run s [e] (Ret tt).

(** The text both handlers of [cl::Error] build:
    [prefix << error.what() << "(" << error.err() << ")\n"]
    followed by [getErrorString(error.err())]. *)
Definition OpenCL_Error_message (prefix : string) (error : cl_Error) : string :=
  prefix +++ cl_what error +++ "(" +++ show_int (cl_err error) +++ ")" +++ nl
         +++ getErrorString (cl_err error).

(** The two catch clauses every try block of the file ends with:
    [cl::Error] is rethrown as a [std::logic_error] carrying the text
    above, [std::logic_error] is rethrown as it is. *)
Definition rethrow {A} (prefix : string) (e : exn) : option (M solver A) :=
  match e with
  | cl_error error => Some (throw (logic_error (OpenCL_Error_message prefix error)))
  | logic_error msg => Some (throw (logic_error msg))
  end.

(** *** Constructor *)

(** The object before the body of the constructor runs: the arguments
    stored by the initialiser list; members without an initialiser are
    given 0, null or the empty array. *)
Definition BdaSolver (verbosity_ maxit_ : Z) (tolerance_ : R)
    (platformID_ deviceID_ : N) (opencl_ilu_reorder_ : ILUReorder) : solver :=
  {| verbosity := verbosity_; maxit := maxit_; tolerance := tolerance_;
     platformID := platformID_; deviceID := deviceID_;
     sN := 0; Nb := 0; nnz := 0; nnzb := 0;
     initialized := false; analysis_done := false;
     opencl_ilu_reorder := opencl_ilu_reorder_;
     prec := None; devices := []; context := None; queue := None;
     err := CL_SUCCESS; mat := None; rmat := rmat_null; rb := [];
     toOrder := []; fromOrder := [];
     dmem := fun _ => []; imem := fun _ => [] |}.

Definition platform_keys_verbose : list platform_info :=
  [CL_PLATFORM_NAME; CL_PLATFORM_VENDOR; CL_PLATFORM_VERSION;
   CL_PLATFORM_PROFILE; CL_PLATFORM_EXTENSIONS].

Definition device_keys_verbose : list device_info :=
  [CL_DEVICE_NAME; CL_DEVICE_VENDOR; CL_DRIVER_VERSION;
   CL_DEVICE_BUILT_IN_KERNELS; CL_DEVICE_PROFILE;
   CL_DEVICE_OPENCL_C_VERSION; CL_DEVICE_EXTENSIONS;
   CL_DEVICE_MAX_WORK_ITEM_SIZES; CL_DEVICE_PARTITION_PROPERTIES;
   CL_DEVICE_PARTITION_TYPE].

Definition device_keys_c_style : list device_info :=
  [CL_DEVICE_LOCAL_MEM_SIZE; CL_DEVICE_GLOBAL_MEM_SIZE;
   CL_DEVICE_MAX_COMPUTE_UNITS; CL_DEVICE_MAX_MEM_ALLOC_SIZE;
   CL_DEVICE_MAX_WORK_GROUP_SIZE; CL_DEVICE_GLOBAL_MEM_SIZE].

(** Lines 54-76: the selector string chooses the preconditioner. *)
Definition select_preconditioner (linsolver : string) : M solver unit :=
  flags <- (if String.eqb linsolver "ilu0" then ret (false, false)
            else if String.eqb linsolver "cpr_quasiimpes" then ret (true, false)
            else if String.eqb linsolver "isai" then ret (false, true)
            else if String.eqb linsolver "cpr_trueimpes" then
              throw (logic_error
                "Error openclSolver does not support --linsolver=cpr_trueimpes")
            else
              throw (logic_error
                ("Error unknown value for argument --linsolver, " +++ linsolver))) ;;
  v <- gets (@verbosity R P) ;;
  reorder <- gets (@opencl_ilu_reorder R P) ;;
  let use_cpr := fst flags in
  let use_isai := snd flags in
  if use_cpr then
    modify (set_prec (Some (Preconditioner_create CPR v reorder)))
  else if use_isai then
    modify (set_prec (Some (Preconditioner_create BISAI v reorder)))
  else
    modify (set_prec (Some (Preconditioner_create BILU0 v reorder))).

(** Lines 80-207: the body of the try block. *)
Definition select_device : M solver unit :=
  issue PlatformGet ;;
  let platforms := cl_platforms in
  if Nat.eqb (List.length platforms) 0 then
    throw (logic_error
      "Error openclSolver is selected but no OpenCL platforms are found")
  else
  v <- gets (@verbosity R P) ;;
  when (1 <=? v)
    (for_each (seq 0 (List.length platforms)) (fun i =>
       for_each platform_keys_verbose (fun key => issue (PlatformGetInfo i key)))) ;;
  pid <- gets (@platformID R P) ;;
  if (N.of_nat (List.length platforms) <=? pid)%N then
    throw (logic_error "Error chosen too high OpenCL platform ID")
  else
  issue (PlatformGetInfo (N.to_nat pid) CL_PLATFORM_NAME) ;;
  issue (PlatformGetInfo (N.to_nat pid) CL_PLATFORM_VERSION) ;;
  issue (GetDevices (N.to_nat pid)) ;;
  match nth_error platforms (N.to_nat pid) with
  | None => stuck NullDereference
  | Some platform =>
  let devs := platform_devices platform in
  modify (set_devices devs) ;;
  if Nat.eqb (List.length devs) 0 then
    throw (logic_error
      "Error openclSolver is selected but no OpenCL devices are found")
  else
  when (1 <=? v)
    (for_each (seq 0 (List.length devs)) (fun i =>
       for_each device_keys_verbose (fun key => issue (DeviceGetInfo i key)) ;;
       for_each device_keys_c_style (fun key => issue_c (clGetDeviceInfo i key)))) ;;
  did <- gets (@deviceID R P) ;;
  if (N.of_nat (List.length devs) <=? did)%N then
    throw (logic_error "Error chosen too high OpenCL device ID")
  else
  issue (DeviceGetInfo (N.to_nat did) CL_DEVICE_NAME) ;;
  issue (DeviceGetInfo (N.to_nat did) CL_DEVICE_VERSION) ;;
  (* removed all unused devices *)
  match nth_error devs (N.to_nat did) with
  | None => stuck NullDereference
  | Some chosen =>
  modify (set_devices [chosen]) ;;
  issue CreateContext ;;
  modify (set_context (Some chosen)) ;;
  issue CreateCommandQueue ;;
  modify (fun s => set_err CL_SUCCESS (set_queue (Some chosen) s)) ;;
  issue KernelsInit
  end
  end.

Definition openclSolverBackend_body (linsolver : string) : M solver unit :=
  select_preconditioner linsolver ;;
  try_catch select_device (rethrow "OpenCL Error: ").

(** [openclSolverBackend(verbosity_, maxit_, tolerance_, platformID_,
    deviceID_, opencl_ilu_reorder_, linsolver)], constructed after the
    calls of the history [h]. The object exists when the result is
    [Ret tt]; it is then [final]. *)
Definition openclSolverBackend (verbosity_ maxit_ : Z) (tolerance_ : R)
    (platformID_ deviceID_ : N) (opencl_ilu_reorder_ : ILUReorder)
    (linsolver : string) (h : list event) : run solver unit :=
  openclSolverBackend_body linsolver h
    (BdaSolver verbosity_ maxit_ tolerance_ platformID_ deviceID_
               opencl_ilu_reorder_).

(** *** Device memory *)

Definition upd {A} (m : buf -> A) (b : buf) (v : A) : buf -> A :=
  fun b' => if buf_eqb b' b then v else m b'.

Definition write_d (b : buf) (v : list R) (s : solver) : solver :=
  set_dmem (upd (dmem s) b v) s.

Definition write_i (b : buf) (v : list Z) (s : solver) : solver :=
  set_imem (upd (imem s) b v) s.

Definition is_NONE (r : ILUReorder) : bool :=
  match r with NONE => true | _ => false end.

(** A call on the command queue, [queue->enqueue...]. *)
Definition enqueue (e : event) : M solver unit :=
  q <- gets (@queue R P) ;;
  match q with
  | None => stuck NullDereference
  | Some _ => issue e
  end.

(** [enqueueFillBuffer(b, 0, 0, sizeof(double) * N)] *)
Definition enqueueFillBuffer (b : buf) : M solver unit :=
  enqueue (FillBuffer b) ;;
  modify (fun s => write_d b (repeat r0 (Z.to_nat (sN s))) s).

(** [enqueueCopyBuffer(src, dst, 0, 0, sizeof(double) * N)] *)
Definition enqueueCopyBuffer (src dst : buf) : M solver unit :=
  enqueue (CopyBuffer src dst) ;;
  modify (fun s => write_d dst (firstn (Z.to_nat (sN s)) (dmem s src)) s).

(** [enqueueWriteBuffer(b, CL_TRUE, 0, sizeof(double) * n, host)] *)
Definition enqueueWriteBuffer (b : buf) (n : Z) (host : list R) : M solver unit :=
  enqueue (WriteBuffer b) ;;
  modify (write_d b (firstn (Z.to_nat n) host)).

(** [enqueueWriteBuffer(b, CL_TRUE, 0, sizeof(int) * n, host)] *)
Definition enqueueWriteBuffer_int (b : buf) (n : Z) (host : list Z) : M solver unit :=
  enqueue (WriteBuffer b) ;;
  modify (write_i b (firstn (Z.to_nat n) host)).

(** *** The kernels of OpenclKernels *)

Fixpoint zip_with {A B C} (f : A -> B -> C) (a : list A) (b : list B) : list C :=
  match a, b with
  | x :: a', y :: b' => f x y :: zip_with f a' b'
  | _, _ => []
  end.

(** Modelled from the spec: openclKernels.cpp is not among the sources.
    Section 4.4: [axpy(a, scale, b)] is [b += scale * a], in place. *)
Definition axpy (a : list R) (scale : R) (b : list R) : list R :=
  zip_with (fun ai bi => radd bi (rmul scale ai)) a b.

(** Modelled from the spec: openclKernels.cpp is not among the sources.
    Section 4.4: the fused kernel computes [p = r + beta * (p - omega * v)]
    in one pass. *)
Definition custom (p v r : list R) (omega beta : R) : list R :=
  zip_with (fun ri pv => radd ri (rmul beta (rsub (fst pv) (rmul omega (snd pv)))))
           r (zip_with pair p v).

Definition OpenclKernels_dot (in1 in2 : buf) : M solver R :=
  issue (Kdot in1 in2) ;;
  gets (fun s => dot (dmem s in1) (dmem s in2) (sN s)).

Definition OpenclKernels_norm (inp : buf) : M solver R :=
  issue (Knorm inp) ;;
  gets (fun s => norm (dmem s inp) (sN s)).

Definition OpenclKernels_axpy (inp : buf) (a : R) (out : buf) : M solver unit :=
  issue (Kaxpy inp out) ;;
  modify (fun s => write_d out (axpy (dmem s inp) a (dmem s out)) s).

Definition OpenclKernels_custom (p v r : buf) (omega beta : R) : M solver unit :=
  issue (Kcustom p v r) ;;
  modify (fun s => write_d p (custom (dmem s p) (dmem s v) (dmem s r) omega beta) s).

(** [OpenclKernels::spmv(d_Avals, d_Acols, d_Arows, x, b, Nb, block_size)] *)
Definition OpenclKernels_spmv (x b : buf) : M solver unit :=
  issue (Kspmv x b) ;;
  modify (fun s =>
    write_d b (spmv (dmem s d_Avals) (imem s d_Acols) (imem s d_Arows)
                    (dmem s x) (Nb s) block_size) s).

(** [prec->apply(x, y)] *)
Definition prec_apply_to (x y : buf) : M solver unit :=
  p <- gets (@prec R P) ;;
  match p with
  | None => stuck NullDereference
  | Some pr =>
      issue (PrecApply x y) ;;
      modify (fun s => write_d y (prec_apply pr (dmem s x)) s)
  end.

(** The guarded call
    [if (wellContribs.getNumWells() > 0) wellContribs.apply(x, y, d_toOrder)] *)
Definition apply_wellContributions (wellContribs : WellContributions W)
    (x y : buf) : M solver unit :=
  when (0 <? getNumWells wellContribs)
    (issue (WellApply x y) ;;
     modify (fun s =>
       write_d y (WellContributionsOCL_apply wellContribs (dmem s x) (dmem s y)
                                             (imem s d_toOrder)) s)).

(** *** The counter [float it]

    [half] is [2 * it]. Every multiple of 0.5 below 2^23 is a binary32
    value, so adding 0.5 is exact up to 2^23; at 2^23 the sum lies
    halfway between 2^23 and 2^23 + 1 and rounds to the even one, 2^23.
    The loop starts at 0.5, so no other value is ever incremented. *)
Definition half := Z.

Definition add_half (h : half) : half :=
  if h <? 2 ^ 24 then h + 1 else h.

(** [(float) maxit]: the nearest binary32 value of an [int], ties to
    even (24 bits of significand). *)
Definition float_of_int (z : Z) : Z :=
  let a := Z.abs z in
  if a <? 2 ^ 24 then z
  else
    let e := Z.log2 a - 23 in
    let q := Z.shiftr a e in
    let rest := a - Z.shiftl q e in
    let mid := Z.shiftl 1 (e - 1) in
    let q' := if rest <? mid then q
              else if mid <? rest then q + 1
              else if Z.even q then q else q + 1 in
    Z.sgn z * Z.shiftl q' e.

(** [it < maxit], compared as floats *)
Definition it_lt_maxit (h : half) (maxit_ : Z) : bool :=
  h <? 2 * float_of_int maxit_.

(** [it > 1] *)
Definition it_gt_1 (h : half) : bool := 2 <? h.

(** *** gpu_pbicgstab *)

(** The scalars the loop carries from one half step to the next. *)
Record locals := {
  it : half;
  rho : R;
  alpha : R;
  omega : R;
  cur_norm : R
}.

(** Modelled from the spec: BdaResult.hpp is not among the sources.
    Section 6 lists the fields of the result record; [elapsed] is a
    wall-clock time and is left out. [iterations] is in half steps. *)
Record BdaResult := {
  iterations : half;
  reduction : R;
  conv_rate : R;
  converged : bool
}.

(** Lines 255-274: the initial values. Returns [norm_0]. *)
Definition gpu_pbicgstab_setup : M solver R :=
  enqueueFillBuffer d_p ;;
  enqueueFillBuffer d_v ;;
  enqueueCopyBuffer d_b d_r ;;
  enqueueCopyBuffer d_r d_rw ;;
  enqueueCopyBuffer d_r d_p ;;
  issue WaitForEvents ;;
  e <- gets (@err R P) ;;
  if negb (e =? CL_SUCCESS) then
    throw (logic_error "openclSolverBackend OpenCL enqueue[Fill|Copy]Buffer error")
  else
  OpenclKernels_norm d_r.

(** Lines 284-320: from the head of the loop body to the first test. *)
Definition first_half_step (wellContribs : WellContributions W) (l : locals)
    : M solver locals :=
  let rhop := rho l in
  rho' <- OpenclKernels_dot d_rw d_r ;;
  when (it_gt_1 (it l))
    (let beta := rmul (rdiv rho' rhop) (rdiv (alpha l) (omega l)) in
     OpenclKernels_custom d_p d_v d_r (omega l) beta) ;;
  (* pw = prec(p) *)
  prec_apply_to d_p d_pw ;;
  (* v = A * pw *)
  OpenclKernels_spmv d_pw d_v ;;
  (* apply wellContributions *)
  apply_wellContributions wellContribs d_pw d_v ;;
  tmp1 <- OpenclKernels_dot d_rw d_v ;;
  let alpha' := rdiv rho' tmp1 in
  OpenclKernels_axpy d_v (ropp alpha') d_r ;;   (* r = r - alpha * v *)
  OpenclKernels_axpy d_pw alpha' d_x ;;         (* x = x + alpha * pw *)
  norm' <- OpenclKernels_norm d_r ;;
  ret {| it := it l; rho := rho'; alpha := alpha'; omega := omega l;
         cur_norm := norm' |}.

(** Lines 324-348: from [it += 0.5] (done by the caller) to the second
    test. *)
Definition second_half_step (wellContribs : WellContributions W) (l : locals)
    : M solver locals :=
  (* s = prec(r) *)
  prec_apply_to d_r d_s ;;
  (* t = A * s *)
  OpenclKernels_spmv d_s d_t ;;
  (* apply wellContributions *)
  apply_wellContributions wellContribs d_s d_t ;;
  tmp1 <- OpenclKernels_dot d_t d_r ;;
  tmp2 <- OpenclKernels_dot d_t d_t ;;
  let omega' := rdiv tmp1 tmp2 in
  OpenclKernels_axpy d_s omega' d_x ;;          (* x = x + omega * s *)
  OpenclKernels_axpy d_t (ropp omega') d_r ;;   (* r = r - omega * t *)
  norm' <- OpenclKernels_norm d_r ;;
  ret {| it := it l; rho := rho l; alpha := alpha l; omega := omega';
         cur_norm := norm' |}.

Definition step_it (l : locals) : locals :=
  {| it := add_half (it l); rho := rho l; alpha := alpha l; omega := omega l;
     cur_norm := cur_norm l |}.

(** [for (it = 0.5; it < maxit; it += 0.5) { ... }], entered with the
    locals [l]; every pass of the body uses one unit of [fuel]. The
    result is the locals when the loop is left, by [break] or by its
    condition. *)
Fixpoint pbicgstab_loop (fuel : nat) (wellContribs : WellContributions W)
    (norm_0 : R) (l : locals) : M solver locals :=
  match fuel with
  | O => stuck OutOfFuel
  | S fuel' =>
      mx <- gets (@maxit R P) ;;
      tol <- gets (@tolerance R P) ;;
      if it_lt_maxit (it l) mx then
        l1 <- first_half_step wellContribs l ;;
        if rltb (cur_norm l1) (rmul tol norm_0) then ret l1
        else
          l2 <- second_half_step wellContribs (step_it l1) ;;
          if rltb (cur_norm l2) (rmul tol norm_0) then ret l2
          else pbicgstab_loop fuel' wellContribs norm_0 (step_it l2)
      else ret l
  end.

(** Lines 361-365: the result record. *)
Definition report (mx : Z) (norm_0 : R) (l : locals) : BdaResult :=
  let red := rdiv (cur_norm l) norm_0 in
  {| iterations := Z.min (it l) (2 * float_of_int mx);
     reduction := red;
     conv_rate := rpow_inv red (it l);
     converged := negb (it l =? 2 * mx + 1) |}.

Definition gpu_pbicgstab (fuel : nat) (wellContribs : WellContributions W)
    : M solver BdaResult :=
  norm_0 <- gpu_pbicgstab_setup ;;
  l <- pbicgstab_loop fuel wellContribs norm_0
         {| it := 1; rho := r1; alpha := r1; omega := r1; cur_norm := norm_0 |} ;;
  mx <- gets (@maxit R P) ;;
  ret (report mx norm_0 l).

(** *** initialize *)

Definition vector_buffers : list buf :=
  [d_x; d_b; d_rb; d_r; d_rw; d_p; d_pw; d_s; d_t; d_v; d_tmp].

Definition matrix_buffers : list buf := [d_Avals; d_Acols; d_Arows].

(** A buffer created in [context], which is dereferenced. The contents
    of a new buffer are indeterminate: the model leaves [dmem] as it is. *)
Definition new_Buffer (b : buf) : M solver unit :=
  c <- gets (@context R P) ;;
  match c with
  | None => stuck NullDereference
  | Some _ => issue (CreateBuffer b)
  end.

(** The divisions are those of C++ on non-negative operands. *)
Definition initialize (N_ nnz_ dim : Z) (vals : list R) (rows cols : list Z)
    : M solver unit :=
  modify (set_sN N_) ;;
  modify (set_nnz nnz_) ;;
  modify (set_nnzb (Z.quot (Z.quot nnz_ block_size) block_size)) ;;
  modify (fun s => set_Nb (Z.quot (sN s + dim - 1) dim) s) ;;
  try_catch
    ((* prec->setOpencl(context, queue) *)
     p <- gets (@prec R P) ;;
     match p with
     | None => stuck NullDereference
     | Some _ =>
     modify (fun s =>
       set_mat (Some {| bm_Nb := Nb s; bm_nnzbs := nnzb s;
                        bm_block_size := block_size; nnzValues := vals;
                        colIndices := cols; rowPointers := rows |}) s) ;;
     for_each vector_buffers new_Buffer ;;
     for_each matrix_buffers new_Buffer ;;
     reorder <- gets (@opencl_ilu_reorder R P) ;;
     when (negb (is_NONE reorder))
       (modify (fun s => set_rb (repeat r0 (Z.to_nat (sN s))) s) ;;
        new_Buffer d_toOrder)
     end)
    (rethrow "OpenCL Error: ") ;;
  modify (set_initialized true).

(** *** Transfers *)

(** The matrix behind the pointer [rmat]. *)
Definition deref_rmat (s : solver) : option (BlockedMatrix R) :=
  match rmat s with
  | rmat_null => None
  | rmat_mat => mat s
  | rmat_prec => match prec s with
                 | Some pr => prec_getRMat pr
                 | None => None
                 end
  end.

(** The check that follows the transfers; a transfer that returns has
    returned [CL_SUCCESS], the bindings raise [cl::Error] otherwise. *)
Definition check_err (msg : string) : M solver unit :=
  e <- gets (@err R P) ;;
  if negb (e =? CL_SUCCESS) then throw (logic_error msg) else ret tt.

Definition copy_system_to_gpu : M solver unit :=
  rm <- gets deref_rmat ;;
  match rm with
  | None => stuck NullDereference
  | Some rmat_ =>
  n_nnz <- gets (@nnz R P) ;;
  n_nnzb <- gets (@nnzb R P) ;;
  n_Nb <- gets (@Nb R P) ;;
  n <- gets (@sN R P) ;;
  host_rb <- gets (@rb R P) ;;
  enqueueWriteBuffer d_Avals n_nnz (nnzValues rmat_) ;;
  modify (set_err CL_SUCCESS) ;;
  enqueueWriteBuffer_int d_Acols n_nnzb (colIndices rmat_) ;;
  enqueueWriteBuffer_int d_Arows (n_Nb + 1) (rowPointers rmat_) ;;
  enqueueWriteBuffer d_b n host_rb ;;
  enqueueFillBuffer d_x ;;
  reorder <- gets (@opencl_ilu_reorder R P) ;;
  when (negb (is_NONE reorder))
    (order <- gets (@toOrder R P) ;;
     enqueueWriteBuffer_int d_toOrder n_Nb order) ;;
  issue WaitForEvents ;;
  check_err "openclSolverBackend OpenCL enqueueWriteBuffer error"
  end.

(** don't copy rowpointers and colindices, they stay the same *)
Definition update_system_on_gpu : M solver unit :=
  rm <- gets deref_rmat ;;
  match rm with
  | None => stuck NullDereference
  | Some rmat_ =>
  n_nnz <- gets (@nnz R P) ;;
  n <- gets (@sN R P) ;;
  host_rb <- gets (@rb R P) ;;
  enqueueWriteBuffer d_Avals n_nnz (nnzValues rmat_) ;;
  modify (set_err CL_SUCCESS) ;;
  enqueueWriteBuffer d_b n host_rb ;;
  enqueueFillBuffer d_x ;;
  issue WaitForEvents ;;
  check_err "openclSolverBackend OpenCL enqueueWriteBuffer error"
  end.

(** *** analyze_matrix, update_system, create_preconditioner *)

Definition analyze_matrix : M solver bool :=
  p <- gets (@prec R P) ;;
  match p with
  | None => stuck NullDereference
  | Some pr =>
      m <- gets (@mat R P) ;;
      let success := fst (prec_analyze_matrix pr m) in
      let pr' := snd (prec_analyze_matrix pr m) in
      issue (PrecAnalyze success) ;;
      modify (set_prec (Some pr')) ;;
      reorder <- gets (@opencl_ilu_reorder R P) ;;
      (if is_NONE reorder then modify (set_rmat rmat_mat)
       else
         modify (set_toOrder (prec_getToOrder pr')) ;;
         modify (set_fromOrder (prec_getFromOrder pr')) ;;
         modify (set_rmat rmat_prec)) ;;
      modify (set_analysis_done true) ;;
      ret success
  end.

Definition update_system (vals b : list R) (wellContribs : WellContributions W)
    : M solver (WellContributions W) :=
  m <- gets (@mat R P) ;;
  match m with
  | None => stuck NullDereference
  | Some bm =>
      modify (set_mat (Some (set_nnzValues vals bm))) ;;
      reorder <- gets (@opencl_ilu_reorder R P) ;;
      if negb (is_NONE reorder) then
        from <- gets (@fromOrder R P) ;;
        to <- gets (@toOrder R P) ;;
        modify (set_rb (reorderBlockedVectorByPattern (bm_Nb bm) b from)) ;;
        ret (setReordering (Some to) true wellContribs)
      else
        modify (set_rb b) ;;
        ret (setReordering None false wellContribs)
  end.

Definition create_preconditioner : M solver bool :=
  p <- gets (@prec R P) ;;
  match p with
  | None => stuck NullDereference
  | Some pr =>
      m <- gets (@mat R P) ;;
      let result_ := fst (prec_create_preconditioner pr m) in
      let pr' := snd (prec_create_preconditioner pr m) in
      issue (PrecCreate result_) ;;
      modify (set_prec (Some pr')) ;;
      ret result_
  end.

(** *** solve_system(wellContribs, res) and get_result *)

Definition solve_system_wells (fuel : nat) (wellContribs : WellContributions W)
    : M solver BdaResult :=
  try_catch (gpu_pbicgstab fuel wellContribs)
            (rethrow "openclSolverBackend::solve_system error: ").

(** [get_result(x)]: the result is the contents of the caller's array
    [x] after the call. *)
Definition get_result : M solver (list R) :=
  reorder <- gets (@opencl_ilu_reorder R P) ;;
  if negb (is_NONE reorder) then
    enqueue (ReadBuffer d_x) ;;
    modify (fun s => set_rb (firstn (Z.to_nat (sN s)) (dmem s d_x)) s) ;;
    m <- gets (@mat R P) ;;
    match m with
    | None => stuck NullDereference
    | Some bm =>
        gets (fun s => reorderBlockedVectorByPattern (bm_Nb bm) (rb s) (toOrder s))
    end
  else
    enqueue (ReadBuffer d_x) ;;
    gets (fun s => firstn (Z.to_nat (sN s)) (dmem s d_x)).

(** *** solve_system(N, nnz, dim, vals, rows, cols, b, wellContribs, res) *)

(** Lines 643-661: everything before the call of the solver. The result
    is the status of an early [return], if any, and the well
    contributions as [update_system] left them. *)
Definition prepare_system (N_ nnz_ dim : Z) (vals : list R) (rows cols : list Z)
    (b : list R) (wellContribs : WellContributions W)
    : M solver (option SolverStatus * WellContributions W) :=
  init <- gets (@initialized R P) ;;
  if negb init then
    initialize N_ nnz_ dim vals rows cols ;;
    done <- gets (@analysis_done R P) ;;
    ok <- (if negb done then analyze_matrix else ret true) ;;
    if negb ok then ret (Some BDA_SOLVER_ANALYSIS_FAILED, wellContribs)
    else
      wc <- update_system vals b wellContribs ;;
      ok' <- create_preconditioner ;;
      if negb ok' then ret (Some BDA_SOLVER_CREATE_PRECONDITIONER_FAILED, wc)
      else
        copy_system_to_gpu ;;
        ret (None, wc)
  else
    wc <- update_system vals b wellContribs ;;
    ok' <- create_preconditioner ;;
    if negb ok' then ret (Some BDA_SOLVER_CREATE_PRECONDITIONER_FAILED, wc)
    else
      update_system_on_gpu ;;
      ret (None, wc).

(** The caller's [res] and [wellContribs] are returned as the call
    leaves them. *)
Definition solve_system (fuel : nat) (N_ nnz_ dim : Z) (vals : list R)
    (rows cols : list Z) (b : list R) (wellContribs : WellContributions W)
    (res : BdaResult)
    : M solver (SolverStatus * BdaResult * WellContributions W) :=
  early <- prepare_system N_ nnz_ dim vals rows cols b wellContribs ;;
  match fst early with
  | Some status => ret (status, res, snd early)
  | None =>
      res' <- solve_system_wells fuel (snd early) ;;
      ret (BDA_SOLVER_SUCCESS, res', snd early)
  end.

End Model.

(** ** The second constructor and setOpencl *)

Section SharedContextModel.
Context {R P : Type}.

Local Abbreviation solver := (Solver R P).



End SharedContextModel.

(** ** The recurrence of the specification

    Section 4.6 of the specification, on vectors: the operators of the
    linear system are parameters, the counter and its comparison with
    [maxit] are those of the loop. *)

Section Recurrence.
Context {R : Type} {SR : Scalar R}.

Variable A_times : list R -> list R.              (* A . x *)
Variable Precond_apply : list R -> list R.        (* Precond.apply(x) *)
Variable Wells_add : list R -> list R -> list R.  (* y += WellContributions.apply(x) *)
Variable inner : list R -> list R -> R.           (* <a, b> *)
Variable norm2 : list R -> R.                     (* ||a|| *)
Variable maxit_ : Z.
Variable tol : R.
Variable norm0 : R.


Record bicgstab := {
  bx : list R;
  br : list R;
  brw : list R;
  bp : list R;
  bv : list R;
  brho : R;
  balpha : R;
  bomega : R;
  bit : half;
  bnorm : R
}.





End Recurrence.

(** ** Observations on traces *)

(** Every sparse product is followed at once by the well contributions
    for the same input and output, and the well contributions are
    applied nowhere else. *)
Fixpoint wells_follow_spmv (t : list event) : bool :=
  match t with
  | [] => true
  | Kspmv x y :: rest =>
      match rest with
      | WellApply x' y' :: rest' =>
          buf_eqb x x' && buf_eqb y y' && wells_follow_spmv rest'
      | _ => false
      end
  | WellApply _ _ :: _ => false
  | _ :: rest => wells_follow_spmv rest
  end.

Definition is_WellApply (e : event) : bool :=
  match e with WellApply _ _ => true | _ => false end.

Definition is_Kspmv (e : event) : bool :=
  match e with Kspmv _ _ => true | _ => false end.

(** The calls [gpu_pbicgstab] makes: its fills and copies, the kernels,
    and the applications of the preconditioner and of the wells. *)
Definition solver_event (e : event) : bool :=
  match e with
  | FillBuffer d_p | FillBuffer d_v | CopyBuffer _ _
  | Kdot _ _ | Knorm _ | Kcustom _ _ _ | Kaxpy _ _ | Kspmv _ _
  | PrecApply _ _ | WellApply _ _ => true
  | _ => false
  end.

Definition is_PrecAnalyze (e : event) : bool :=
  match e with PrecAnalyze _ => true | _ => false end.

Definition event_eqb_PrecAnalyze (ok : bool) (e : event) : bool :=
  match e with PrecAnalyze ok' => Bool.eqb ok ok' | _ => false end.

Definition event_eqb_PrecCreate (ok : bool) (e : event) : bool :=
  match e with PrecCreate ok' => Bool.eqb ok ok' | _ => false end.

Definition analysis_failed (t : list event) : bool :=
  existsb (event_eqb_PrecAnalyze false) t.

Definition creation_failed (t : list event) : bool :=
  existsb (event_eqb_PrecCreate false) t.

Definition solver_started (t : list event) : bool := existsb solver_event t.

Definition analysis_ran (t : list event) : bool := existsb is_PrecAnalyze t.



(** An installation like [CL] on which no call raises [cl::Error]. *)
Definition no_faults (CL : OpenCL) : OpenCL :=
  {| cl_platforms := @cl_platforms CL;
     cl_fault := fun _ _ => None;
     getErrorString := @getErrorString CL |}.

(** ** The errors of the constructor *)

(** The calls made through the C++ bindings raise [cl::Error];
    [clGetDeviceInfo] is the C function, whose status the constructor
    drops. *)
Definition raises (e : event) : bool :=
  match e with clGetDeviceInfo _ _ => false | _ => true end.

(** The first [cl::Error] the installation raises on the calls [t],
    made after the calls [h]. *)
Fixpoint first_fault {CL : OpenCL} (h t : list event) : option cl_Error :=
  match t with
  | [] => None
  | e :: t' =>
      match (if raises e then cl_fault h e else None) with
      | Some error => Some error
      | None => first_fault (h ++ [e]) t'
      end
  end.

(** The preconditioner a selector string stands for. *)
Definition selected (linsolver : string) : option PreconditionerType :=
  if String.eqb linsolver "ilu0" then Some BILU0
  else if String.eqb linsolver "cpr_quasiimpes" then Some CPR
  else if String.eqb linsolver "isai" then Some BISAI
  else None.

(** The platform and the device chosen exist. *)
Definition chosen_exist {CL : OpenCL} (platformID_ deviceID_ : N) : bool :=
  match nth_error cl_platforms (N.to_nat platformID_) with
  | Some platform => (N.to_nat deviceID_ <? List.length (platform_devices platform))%nat
  | None => false
  end.

(** The four messages of lines 83, 107, 124 and 180, each with the
    condition it reports. *)
Definition device_error {CL : OpenCL} (platformID_ deviceID_ : N) (msg : string) : Prop :=
  (cl_platforms = [] /\
   msg = "Error openclSolver is selected but no OpenCL platforms are found"%string) \/
  ((N.of_nat (List.length cl_platforms) <= platformID_)%N /\
   msg = "Error chosen too high OpenCL platform ID"%string) \/
  (exists platform,
     nth_error cl_platforms (N.to_nat platformID_) = Some platform /\
     ((platform_devices platform = [] /\
       msg = "Error openclSolver is selected but no OpenCL devices are found"%string) \/
      ((N.of_nat (List.length (platform_devices platform)) <= deviceID_)%N /\
       msg = "Error chosen too high OpenCL device ID"%string))).

(** ** The loop as an instance of the recurrence *)

Section Abstraction.
Context {R P W : Type} {SR : Scalar R} {LA : Linalg R}
        {PR : Preconditioner R P} {WM : WellModel R W}.

(** The vectors and scalars of the recurrence, read off the device
    buffers and the locals. *)
Definition abs (s : Solver R P) (l : locals) : bicgstab :=
  {| bx := dmem s d_x; br := dmem s d_r; brw := dmem s d_rw; bp := dmem s d_p;
     bv := dmem s d_v; brho := rho l; balpha := alpha l; bomega := omega l;
     bit := it l; bnorm := cur_norm l |}.






(** The members and buffers no kernel of the loop writes. *)
Definition frame (s s' : Solver R P) : Prop :=
  prec s' = prec s /\ maxit s' = maxit s /\ tolerance s' = tolerance s /\
  sN s' = sN s /\ Nb s' = Nb s /\ queue s' = queue s /\ err s' = err s /\
  imem s' = imem s /\ dmem s' d_Avals = dmem s d_Avals /\
  dmem s' d_b = dmem s d_b.

(** The calls of the two half steps. *)
Definition first_half_trace (h : half) (wellContribs : WellContributions W)
    : list event :=
  ([Kdot d_rw d_r]
   ++ (if it_gt_1 h then [Kcustom d_p d_v d_r] else [])
   ++ [PrecApply d_p d_pw; Kspmv d_pw d_v]
   ++ (if 0 <? getNumWells wellContribs then [WellApply d_pw d_v] else [])
   ++ [Kdot d_rw d_v; Kaxpy d_v d_r; Kaxpy d_pw d_x; Knorm d_r])%list.

Definition second_half_trace (wellContribs : WellContributions W) : list event :=
  ([PrecApply d_r d_s; Kspmv d_s d_t]
   ++ (if 0 <? getNumWells wellContribs then [WellApply d_s d_t] else [])
   ++ [Kdot d_t d_r; Kdot d_t d_t; Kaxpy d_s d_x; Kaxpy d_t d_r; Knorm d_r])%list.

Definition setup_trace : list event :=
  [FillBuffer d_p; FillBuffer d_v; CopyBuffer d_b d_r; CopyBuffer d_r d_rw;
   CopyBuffer d_r d_p; WaitForEvents; Knorm d_r].

End Abstraction.

(** ** Successive calls on one object *)

Section Calls.
Context {R P W : Type} {SR : Scalar R} {LA : Linalg R}
        {PR : Preconditioner R P} {WM : WellModel R W} {CL : OpenCL}.




End Calls.

(** ** A concrete installation over the integers

    Scalars are integers, the blocks have size 1, the preconditioner is
    the identity, and one device on one platform raises no error. It
    serves to run the model on explicit inputs. *)

Definition Z_dot (a b : list Z) (n : Z) : Z :=
  fold_left Z.add
    (zip_with Z.mul (firstn (Z.to_nat n) a) (firstn (Z.to_nat n) b)) 0.

Definition Z_spmv (vals : list Z) (cols rows : list Z) (x : list Z)
    (nb bs : Z) : list Z :=
  map (fun i =>
         let lo := nth i rows 0 in
         let hi := nth (S i) rows 0 in
         fold_left Z.add
           (map (fun k => nth k vals 0 * nth (Z.to_nat (nth k cols 0)) x 0)
                (seq (Z.to_nat lo) (Z.to_nat (hi - lo)))) 0)
      (seq 0 (Z.to_nat nb)).

(** [rVector[i] = vector[order[i]]] for the [nb] blocks of size 1. *)
Definition Z_reorder (nb : Z) (v : list Z) (order : list Z) : list Z :=
  map (fun i => nth (Z.to_nat i) v 0) (firstn (Z.to_nat nb) order).

#[global] Instance Z_Scalar : Scalar Z :=
  {| r0 := 0; r1 := 1; radd := Z.add; rsub := Z.sub; rmul := Z.mul;
     rdiv := Z.quot; ropp := Z.opp; rltb := Z.ltb;
     rpow_inv := fun x _ => x |}.

#[global] Instance Z_Linalg : Linalg Z :=
  {| block_size := 1; dot := Z_dot;
     norm := fun a n => Z.sqrt (Z_dot a a n);
     spmv := Z_spmv;
     reorderBlockedVectorByPattern := Z_reorder |}.

(** A preconditioner that applies the identity. Its analysis fails on
    a matrix without rows, its construction on a matrix whose first
    value is zero. When a reordering is asked for it reverses the order
    of the blocks; for the dense systems used here the reordered matrix
    has the array of values reversed. *)
Record toy_prec := {
  reversing : bool;
  toy_Nb : Z;
  toy_rmat : option (BlockedMatrix Z)
}.

Definition reversal (nb : Z) : list Z :=
  map Z.of_nat (rev (seq 0 (Z.to_nat nb))).

Definition toy_reordered (p : toy_prec) (m : option (BlockedMatrix Z))
    : toy_prec :=
  match m with
  | Some bm =>
      {| reversing := reversing p; toy_Nb := bm_Nb bm;
         toy_rmat := Some (set_nnzValues (rev (nnzValues bm)) bm) |}
  | None => p
  end.

Definition toy_analysis_ok (m : option (BlockedMatrix Z)) : bool :=
  match m with
  | Some bm => 0 <? bm_Nb bm
  | None => false
  end.

Definition toy_creation_ok (m : option (BlockedMatrix Z)) : bool :=
  match m with
  | Some bm => match nnzValues bm with
               | v :: _ => negb (v =? 0)
               | [] => false
               end
  | None => false
  end.

#[global] Instance toy_Preconditioner : Preconditioner Z toy_prec :=
  {| Preconditioner_create := fun _ _ reorder =>
       {| reversing := match reorder with NONE => false | _ => true end;
          toy_Nb := 0; toy_rmat := None |};
     prec_analyze_matrix := fun p m => (toy_analysis_ok m, toy_reordered p m);
     prec_create_preconditioner := fun p m => (toy_creation_ok m, toy_reordered p m);
     prec_apply := fun _ x => x;
     prec_getToOrder := fun p => reversal (toy_Nb p);
     prec_getFromOrder := fun p => reversal (toy_Nb p);
     prec_getRMat := toy_rmat |}.

(** A well is a cell and a coefficient: [y[cell] += coefficient * x[cell]]. *)
#[global] Instance toy_WellModel : WellModel Z (nat * Z) :=
  {| well_contribution := fun _ _ w x y =>
       map (fun i => if Nat.eqb i (fst w) then nth i y 0 + snd w * nth i x 0
                     else nth i y 0)
           (seq 0 (List.length y)) |}.

Definition one_device : OpenCL :=
  {| cl_platforms := [ {| platform_devices := [ {| device_id := 7 |} ] |} ];
     cl_fault := fun _ _ => None;
     getErrorString := fun _ => "CL_UNKNOWN"%string |}.

Definition no_wells : WellContributions (nat * Z) :=
  {| wells := []; wc_reorder := false; wc_h_toOrder := None |}.


Definition empty_result : @BdaResult Z :=
  {| iterations := 0; reduction := 0; conv_rate := 0; converged := false |}.

(** The solver as the constructor leaves it on [one_device]. *)
Definition toy_solver (maxit_ tolerance_ : Z) (reorder : ILUReorder)
    : Solver Z toy_prec :=
  final (openclSolverBackend (CL := one_device) 0 maxit_ tolerance_ 0%N 0%N
                             reorder "ilu0" []).

(** The 2 x 2 identity, stored densely. *)
Definition toy_vals : list Z := [1; 0; 0; 1].
Definition toy_rows : list Z := [0; 2; 4].
Definition toy_cols : list Z := [0; 1; 0; 1].

(** [toy_solver] after a first [solve_system] for the right-hand side
    [b], the loop given [fuel] passes. *)
Definition toy_solved (fuel : nat) (maxit_ tolerance_ : Z)
    (reorder : ILUReorder) (b : list Z)
    : run (Solver Z toy_prec) (SolverStatus * BdaResult * WellContributions (nat * Z)) :=
  solve_system (CL := one_device) fuel 2 4 1 toy_vals toy_rows toy_cols b
               no_wells empty_result [] (toy_solver maxit_ tolerance_ reorder).

(** [toy_solver] with the system uploaded, as [solve_system] has it when
    it calls the solver. *)
Definition toy_ready (maxit_ tolerance_ : Z) (reorder : ILUReorder)
    (b : list Z) (wellContribs : WellContributions (nat * Z))
    : Solver Z toy_prec :=
  final (prepare_system (CL := one_device) 2 4 1 toy_vals toy_rows toy_cols b
                        wellContribs [] (toy_solver maxit_ tolerance_ reorder)).





(** The preconditioner of [toy_solver] once it has seen the 2 x 2
    identity. *)
Definition toy_prec_ready (reorder : bool) : toy_prec :=
  {| reversing := reorder; toy_Nb := 2;
     toy_rmat := Some {| bm_Nb := 2; bm_nnzbs := 4; bm_block_size := 1;
                         nnzValues := toy_vals; colIndices := toy_cols;
                         rowPointers := toy_rows |} |}.

(** * Proofs *)

(** ** Running a bind *)

Section MonadFacts.
Context {S A B : Type}.

Lemma bind_Ret (m : M S A) (k : A -> M S B) h s s1 t1 a :
  m h s = Run s1 t1 (Ret a) ->
  bind m k h s =
  Run (final (k a (h ++ t1)%list s1))
      (t1 ++ emitted (k a (h ++ t1)%list s1))%list
      (result (k a (h ++ t1)%list s1)).
Proof. intros H. unfold bind. rewrite H. reflexivity. Qed.

Lemma bind_Throw (m : M S A) (k : A -> M S B) h s s1 t1 e :
  m h s = Run s1 t1 (Throw e) -> bind m k h s = Run s1 t1 (Throw e).
Proof. intros H. unfold bind. rewrite H. reflexivity. Qed.

Lemma bind_Stuck (m : M S A) (k : A -> M S B) h s s1 t1 w :
  m h s = Run s1 t1 (Stuck w) -> bind m k h s = Run s1 t1 (Stuck w).
Proof. intros H. unfold bind. rewrite H. reflexivity. Qed.

Lemma run_eta (r : run S B) : Run (final r) (emitted r) (result r) = r.
Proof. destruct r; reflexivity. Qed.

Lemma bind_gets (f : S -> A) (k : A -> M S B) h s :
  bind (gets f) k h s = k (f s) h s.
Proof. unfold bind, gets. cbn. rewrite app_nil_r. apply run_eta. Qed.

Lemma bind_ret (a : A) (k : A -> M S B) h s :
  bind (ret a) k h s = k a h s.
Proof. unfold bind, ret. cbn. rewrite app_nil_r. apply run_eta. Qed.

End MonadFacts.

(** ** The kernels against the vector operations of the recurrence *)

Section Vectors.
Context {R : Type} {SR : Scalar R}.





End Vectors.

Section Refinement.
Context {R P W : Type} {SR : Scalar R} {LA : Linalg R}
        {PR : Preconditioner R P} {WM : WellModel R W} (CL0 : OpenCL).

Local Abbreviation solver := (Solver R P).


Arguments axpy : simpl never.
Arguments custom : simpl never.
Arguments WellContributionsOCL_apply : simpl never.


Lemma frame_refl (s : solver) : frame s s.
Proof. repeat split. Qed.







End Refinement.

(** ** Rules for the calls and the members of a computation *)

Section Rules.
Context {R P : Type}.

Local Abbreviation solver := (Solver R P).

(** Every run of [m] emits a trace in [Q]. *)
Definition emits (Q : list event -> Prop) {A} (m : M solver A) : Prop :=
  forall h s, Q (emitted (m h s)).

(** Every run of [m] from a state in [I] ends in a state in [I]. *)
Definition keeps (I : solver -> Prop) {A} (m : M solver A) : Prop :=
  forall h s, I s -> I (final (m h s)).

Section Emits.
Variable Q : list event -> Prop.
Hypothesis Q_nil : Q [].
Hypothesis Q_app : forall a b, Q a -> Q b -> Q (a ++ b)%list.

Lemma emits_ret {A} (a : A) : emits Q (ret a).
Proof. intros h s. exact Q_nil. Qed.

Lemma emits_gets {A} (f : solver -> A) : emits Q (gets f).
Proof. intros h s. exact Q_nil. Qed.

Lemma emits_modify (f : solver -> solver) : emits Q (modify f).
Proof. intros h s. exact Q_nil. Qed.

Lemma emits_throw {A} (e : exn) : emits Q (@throw solver A e).
Proof. intros h s. exact Q_nil. Qed.

Lemma emits_stuck {A} (w : stuck_reason) : emits Q (@stuck solver A w).
Proof. intros h s. exact Q_nil. Qed.

Lemma emits_issue (CL : OpenCL) (e : event) : Q [e] -> emits Q (issue (CL := CL) e).
Proof. intros He h s. exact He. Qed.

Lemma emits_issue_c (e : event) : Q [e] -> emits Q (@issue_c R P e).
Proof. intros He h s. exact He. Qed.

Lemma emits_bind {A B} (m : M solver A) (k : A -> M solver B) :
  emits Q m -> (forall a, emits Q (k a)) -> emits Q (bind m k).
Proof.
  intros Hm Hk h s. unfold bind. specialize (Hm h s).
  destruct (result (m h s)); cbn; [apply Q_app; [exact Hm | apply Hk] | exact Hm | exact Hm].
Qed.

Lemma emits_try_catch {A} (m : M solver A) (handler : exn -> option (M solver A)) :
  emits Q m -> (forall e c, handler e = Some c -> emits Q c) ->
  emits Q (try_catch m handler).
Proof.
  intros Hm Hc h s. unfold try_catch. specialize (Hm h s).
  destruct (result (m h s)) as [a|e|w]; try exact Hm.
  destruct (handler e) as [c|] eqn:E; [|exact Hm].
  cbn. apply Q_app; [exact Hm | eapply Hc; exact E].
Qed.

Lemma emits_rethrow {A} (CL : OpenCL) (prefix : string) (e : exn) (c : M solver A) :
  rethrow (CL := CL) prefix e = Some c -> emits Q c.
Proof.
  destruct e; cbn; intros H; inversion H; subst; apply emits_throw.
Qed.

Lemma emits_when (c : bool) (m : M solver unit) : emits Q m -> emits Q (when c m).
Proof. intros Hm. destruct c; [exact Hm | apply emits_ret]. Qed.

Lemma emits_for_each {A} (l : list A) (body : A -> M solver unit) :
  (forall a, emits Q (body a)) -> emits Q (for_each l body).
Proof.
  intros Hb. induction l as [|a l IH]; cbn [for_each].
  - apply emits_ret.
  - apply emits_bind; [apply Hb | intros _; exact IH].
Qed.

Lemma emits_enqueue (CL : OpenCL) (e : event) : Q [e] -> emits Q (enqueue (CL := CL) e).
Proof.
  intros He. unfold enqueue. apply emits_bind; [apply emits_gets|].
  intros [d|]; [apply emits_issue; exact He | apply emits_stuck].
Qed.

End Emits.

Section Keeps.
Variable I : solver -> Prop.

Lemma keeps_ret {A} (a : A) : keeps I (ret a).
Proof. intros h s H. exact H. Qed.

Lemma keeps_gets {A} (f : solver -> A) : keeps I (gets f).
Proof. intros h s H. exact H. Qed.

Lemma keeps_modify (f : solver -> solver) :
  (forall s, I s -> I (f s)) -> keeps I (modify f).
Proof. intros Hf h s H. apply Hf. exact H. Qed.

Lemma keeps_throw {A} (e : exn) : keeps I (@throw solver A e).
Proof. intros h s H. exact H. Qed.

Lemma keeps_stuck {A} (w : stuck_reason) : keeps I (@stuck solver A w).
Proof. intros h s H. exact H. Qed.

Lemma keeps_issue (CL : OpenCL) (e : event) : keeps I (issue (CL := CL) e).
Proof. intros h s H. exact H. Qed.

Lemma keeps_bind {A B} (m : M solver A) (k : A -> M solver B) :
  keeps I m -> (forall a, keeps I (k a)) -> keeps I (bind m k).
Proof.
  intros Hm Hk h s H. unfold bind. specialize (Hm h s H).
  destruct (result (m h s)); cbn; [apply Hk; exact Hm | exact Hm | exact Hm].
Qed.

Lemma keeps_try_catch {A} (m : M solver A) (handler : exn -> option (M solver A)) :
  keeps I m -> (forall e c, handler e = Some c -> keeps I c) ->
  keeps I (try_catch m handler).
Proof.
  intros Hm Hc h s H. unfold try_catch. specialize (Hm h s H).
  destruct (result (m h s)) as [a|e|w]; try exact Hm.
  destruct (handler e) as [c|] eqn:E; [|exact Hm].
  cbn. eapply Hc; [exact E | exact Hm].
Qed.

Lemma keeps_rethrow {A} (CL : OpenCL) (prefix : string) (e : exn) (c : M solver A) :
  rethrow (CL := CL) prefix e = Some c -> keeps I c.
Proof.
  destruct e; cbn; intros H; inversion H; subst; apply keeps_throw.
Qed.

Lemma keeps_when (c : bool) (m : M solver unit) : keeps I m -> keeps I (when c m).
Proof. intros Hm. destruct c; [exact Hm | apply keeps_ret]. Qed.

Lemma keeps_for_each {A} (l : list A) (body : A -> M solver unit) :
  (forall a, keeps I (body a)) -> keeps I (for_each l body).
Proof.
  intros Hb. induction l as [|a l IH]; cbn [for_each].
  - apply keeps_ret.
  - apply keeps_bind; [apply Hb | intros _; exact IH].
Qed.

End Keeps.

End Rules.

Ltac emits_step :=
  first
    [ apply emits_ret; assumption
    | apply emits_gets; assumption
    | apply emits_modify; assumption
    | apply emits_throw; assumption
    | apply emits_stuck; assumption
    | apply emits_bind; [ assumption | | intro ]
    | apply emits_try_catch; [ assumption | | intros ? ?; apply emits_rethrow; assumption ]
    | apply emits_for_each; [ assumption | assumption | intro ]
    | apply emits_when; [ assumption | ]
    | apply emits_issue
    | apply emits_issue_c
    | apply emits_enqueue; [ assumption | ]
    | match goal with |- emits _ (if ?c then _ else _) => destruct c end
    | match goal with |- emits _ (match ?c with Some _ => _ | None => _ end) => destruct c end ].

Ltac keeps_step :=
  first
    [ apply keeps_ret
    | apply keeps_gets
    | apply keeps_throw
    | apply keeps_stuck
    | apply keeps_issue
    | apply keeps_modify; intros ? ?
    | apply keeps_bind; [ | intro ]
    | apply keeps_try_catch; [ | intros ? ?; apply keeps_rethrow ]
    | apply keeps_for_each; intro
    | apply keeps_when
    | match goal with |- keeps _ (if ?c then _ else _) => destruct c end
    | match goal with |- keeps _ (match ?c with Some _ => _ | None => _ end) => destruct c end ].

(** ** The calls of the loop *)

Section LoopCalls.
Context {R P W : Type} {SR : Scalar R} {LA : Linalg R}
        {PR : Preconditioner R P} {WM : WellModel R W} (CL0 : OpenCL).

Local Abbreviation solver := (Solver R P).

(** *** The well contributions in the trace *)

Lemma wells_follow_spmv_app (a b : list event) :
  wells_follow_spmv a = true -> wells_follow_spmv b = true ->
  wells_follow_spmv (a ++ b) = true.
Proof.
  remember (List.length a) as n eqn:Hn. revert a Hn.
  induction n as [n IH] using lt_wf_ind. intros a Hn Ha Hb.
  destruct a as [|e a]; [exact Hb|].
  destruct e; cbn in Ha |- *; try discriminate;
    try (apply (IH (List.length a)); [subst; cbn; lia | reflexivity | exact Ha | exact Hb]).
  destruct a as [|e' a]; [discriminate|].
  destruct e'; try discriminate. cbn.
  apply andb_true_iff in Ha. destruct Ha as [Ha1 Ha2]. rewrite Ha1. cbn.
  apply (IH (List.length a)); [subst; cbn; lia | reflexivity | exact Ha2 | exact Hb].
Qed.

Definition well_ordered (t : list event) : Prop := wells_follow_spmv t = true.

Definition no_well_apply (t : list event) : Prop := existsb is_WellApply t = false.

Lemma no_well_apply_app (a b : list event) :
  no_well_apply a -> no_well_apply b -> no_well_apply (a ++ b).
Proof.
  unfold no_well_apply. intros Ha Hb. rewrite existsb_app, Ha, Hb. reflexivity.
Qed.

Lemma buf_eqb_refl (b : buf) : buf_eqb b b = true.
Proof. destruct b; reflexivity. Qed.

Lemma spmv_then_wells {A} wc x y (k : unit -> M solver A) :
  (0 <? getNumWells wc) = true ->
  (forall a, emits well_ordered (k a)) ->
  emits well_ordered
    (bind (OpenclKernels_spmv (CL := no_faults CL0) x y)
          (fun _ => bind (apply_wellContributions (CL := no_faults CL0) wc x y) k)).
Proof.
  intros Hw Hk h s. unfold apply_wellContributions. rewrite Hw.
  unfold well_ordered.
  cbv [bind OpenclKernels_spmv issue modify when result final emitted no_faults cl_fault].
  cbn. rewrite !buf_eqb_refl. cbn. apply Hk.
Qed.

Lemma half_steps_well_ordered wc l :
  (0 <? getNumWells wc) = true ->
  emits well_ordered (first_half_step (CL := no_faults CL0) wc l) /\
  emits well_ordered (second_half_step (CL := no_faults CL0) wc l).
Proof.
  intros Hw.
  assert (Hn : well_ordered []) by reflexivity.
  pose proof wells_follow_spmv_app as Ha. fold well_ordered in Ha.
  split.
  - unfold first_half_step, OpenclKernels_dot, OpenclKernels_custom, prec_apply_to,
      OpenclKernels_axpy, OpenclKernels_norm.
    apply emits_bind; [assumption | repeat emits_step; reflexivity | intro].
    apply emits_bind; [assumption | repeat emits_step; reflexivity | intro].
    apply emits_bind; [assumption | repeat emits_step; reflexivity | intro].
    apply spmv_then_wells; [exact Hw | intro].
    repeat emits_step; reflexivity.
  - unfold second_half_step, OpenclKernels_dot, prec_apply_to,
      OpenclKernels_axpy, OpenclKernels_norm.
    apply emits_bind; [assumption | repeat emits_step; reflexivity | intro].
    apply spmv_then_wells; [exact Hw | intro].
    repeat emits_step; reflexivity.
Qed.

Lemma half_steps_no_well_apply wc l :
  (0 <? getNumWells wc) = false ->
  emits no_well_apply (first_half_step (CL := no_faults CL0) wc l) /\
  emits no_well_apply (second_half_step (CL := no_faults CL0) wc l).
Proof.
  intros Hw.
  assert (Hn : no_well_apply []) by reflexivity.
  pose proof no_well_apply_app as Ha.
  split.
  - unfold first_half_step, OpenclKernels_dot, OpenclKernels_custom, prec_apply_to,
      OpenclKernels_spmv, apply_wellContributions,
      OpenclKernels_axpy, OpenclKernels_norm.
    rewrite Hw. repeat emits_step; reflexivity.
  - unfold second_half_step, OpenclKernels_dot, prec_apply_to,
      OpenclKernels_spmv, apply_wellContributions,
      OpenclKernels_axpy, OpenclKernels_norm.
    rewrite Hw. repeat emits_step; reflexivity.
Qed.

Lemma loop_emits (CL : OpenCL) (Q : list event -> Prop) fuel wc norm_0 :
  Q [] -> (forall a b, Q a -> Q b -> Q (a ++ b)%list) ->
  (forall l, emits Q (first_half_step (CL := CL) wc l)) ->
  (forall l, emits Q (second_half_step (CL := CL) wc l)) ->
  forall l, emits Q (pbicgstab_loop (CL := CL) fuel wc norm_0 l).
Proof.
  intros Hn Ha H1 H2. induction fuel as [|fuel IH]; intros l; cbn [pbicgstab_loop].
  - apply emits_stuck; assumption.
  - repeat first [apply H1 | apply H2 | apply IH | emits_step].
Qed.

Lemma setup_emits (CL : OpenCL) (Q : list event -> Prop) :
  Q [] -> (forall a b, Q a -> Q b -> Q (a ++ b)%list) ->
  (forall e, is_WellApply e = false -> is_Kspmv e = false -> Q [e]) ->
  emits Q (gpu_pbicgstab_setup (P := P) (CL := CL)).
Proof.
  intros Hn Ha He.
  unfold gpu_pbicgstab_setup, enqueueFillBuffer, enqueueCopyBuffer, OpenclKernels_norm.
  repeat emits_step; apply He; reflexivity.
Qed.

(** C4, as the code has it. On an installation that raises no error,
    whatever the state of the solver: when the well contributions hold
    at least one well, every sparse product in the calls of
    [gpu_pbicgstab] is followed at once by the application of the wells
    to the same input and output buffers, and the wells are applied
    nowhere else; when they hold no well, they are never applied. *)
Theorem wells_applied_right_after_spmv
    (fuel : nat) (wc : WellContributions W) (h : list event) (s : solver) :
  let t := emitted (gpu_pbicgstab (CL := no_faults CL0) fuel wc h s) in
  if 0 <? getNumWells wc then wells_follow_spmv t = true
  else existsb is_WellApply t = false.
Proof.
  cbv zeta. destruct (0 <? getNumWells wc) eqn:Hw.
  - assert (Hn : well_ordered []) by reflexivity.
    pose proof wells_follow_spmv_app as Ha. fold well_ordered in Ha.
    change (well_ordered (emitted (gpu_pbicgstab (CL := no_faults CL0) fuel wc h s))).
    revert h s. change (emits well_ordered (gpu_pbicgstab (CL := no_faults CL0) fuel wc)).
    unfold gpu_pbicgstab.
    apply emits_bind; [assumption | | intro].
    { apply setup_emits; try assumption. intros [] H1 H2; try discriminate; reflexivity. }
    apply emits_bind; [assumption | | intro].
    { apply loop_emits; try assumption; intro l; apply half_steps_well_ordered; exact Hw. }
    repeat emits_step.
  - assert (Hn : no_well_apply []) by reflexivity.
    pose proof no_well_apply_app as Ha.
    change (no_well_apply (emitted (gpu_pbicgstab (CL := no_faults CL0) fuel wc h s))).
    revert h s. change (emits no_well_apply (gpu_pbicgstab (CL := no_faults CL0) fuel wc)).
    unfold gpu_pbicgstab.
    apply emits_bind; [assumption | | intro].
    { apply setup_emits; try assumption. intros [] H1 H2; try discriminate; reflexivity. }
    apply emits_bind; [assumption | | intro].
    { apply loop_emits; try assumption; intro l; apply half_steps_no_well_apply; exact Hw. }
    repeat emits_step.
Qed.

(** *** The initial values and the counter *)

Lemma gpu_pbicgstab_setup_run h (s : solver) q :
  queue s = Some q -> err s = CL_SUCCESS ->
  exists s1,
    gpu_pbicgstab_setup (CL := no_faults CL0) h s
      = Run s1 setup_trace
            (Ret (norm (firstn (Z.to_nat (sN s)) (dmem s d_b)) (sN s))) /\
    frame s s1 /\
    dmem s1 d_x = dmem s d_x /\
    dmem s1 d_r = firstn (Z.to_nat (sN s)) (dmem s d_b) /\
    dmem s1 d_rw = firstn (Z.to_nat (sN s)) (dmem s1 d_r) /\
    dmem s1 d_p = firstn (Z.to_nat (sN s)) (dmem s1 d_r) /\
    dmem s1 d_v = repeat r0 (Z.to_nat (sN s)).
Proof.
  intros Hq He. destruct s; cbn in Hq, He; subst.
  eexists. split.
  - cbv -[firstn repeat Z.to_nat]. reflexivity.
  - repeat split.
Qed.

Lemma float_of_int_nonpos (z : Z) : z < 0 -> float_of_int z <= 0.
Proof.
  intros Hz. unfold float_of_int.
  destruct (Z.abs z <? 2 ^ 24); [lia|].
  rewrite (Z.sgn_neg z Hz).
  set (e := Z.log2 (Z.abs z) - 23).
  set (q := Z.shiftr (Z.abs z) e).
  assert (Hq : 0 <= q) by (apply Z.shiftr_nonneg; lia).
  assert (Hs : forall a, 0 <= a -> 0 <= Z.shiftl a e) by (intros a Ha; apply Z.shiftl_nonneg; exact Ha).
  cbv zeta.
  repeat match goal with |- context [if ?c then _ else _] => destruct c end;
    match goal with |- -1 * Z.shiftl ?a e <= 0 => specialize (Hs a); lia end.
Qed.

Lemma float_of_int_small (z : Z) : Z.abs z < 2 ^ 24 -> float_of_int z = z.
Proof.
  intros Hz. unfold float_of_int.
  destruct (Z.abs z <? 2 ^ 24) eqn:E; [reflexivity|].
  apply Z.ltb_ge in E. lia.
Qed.

Lemma loop_not_entered (CL : OpenCL) fuel wc norm_0 (l : locals) h (s : solver) :
  it_lt_maxit (it l) (maxit s) = false ->
  pbicgstab_loop (CL := CL) (S fuel) wc norm_0 l h s = Run s [] (Ret l).
Proof.
  intros Hlt. cbn [pbicgstab_loop]. rewrite !bind_gets, Hlt. reflexivity.
Qed.

(** C5, at the inputs where the code departs from it. With a negative
    [maxit] the body of the loop is never entered: [gpu_pbicgstab] makes
    the calls of its set-up and no other, so no half step has been taken
    and no norm has been compared with the tolerance; yet the result it
    reports has [converged = true], because [it] is 0.5 and not
    [maxit + 0.5]. *)
Theorem negative_maxit_reports_converged
    (fuel : nat) (wc : WellContributions W) (h : list event) (s : solver)
    (q : Device) :
  maxit s < 0 -> queue s = Some q -> err s = CL_SUCCESS ->
  emitted (gpu_pbicgstab (CL := no_faults CL0) (S fuel) wc h s) = setup_trace /\
  exists res,
    result (gpu_pbicgstab (CL := no_faults CL0) (S fuel) wc h s) = Ret res /\
    converged res = true /\ iterations res = 2 * float_of_int (maxit s).
Proof.
  intros Hm Hq He.
  destruct (gpu_pbicgstab_setup_run h s Hq He) as (s1 & E & F & _).
  destruct F as (_ & Fm & _).
  pose proof (float_of_int_nonpos Hm) as Hf.
  assert (Hlt : forall n0, it_lt_maxit (it {| it := 1; rho := r1; alpha := r1;
                  omega := r1; cur_norm := n0 |}) (maxit s1) = false)
    by (intro; cbn [it]; rewrite Fm; unfold it_lt_maxit; apply Z.ltb_ge; lia).
  unfold gpu_pbicgstab.
  erewrite bind_Ret by exact E. cbn [result final emitted].
  erewrite bind_Ret by (apply loop_not_entered; apply Hlt).
  cbn [result final emitted]. rewrite bind_gets.
  cbn [ret result final emitted app]. rewrite Fm.
  split; [reflexivity|].
  eexists. split; [reflexivity|]. unfold report. cbn [converged iterations it]. split.
  - apply negb_true_iff, Z.eqb_neq. lia.
  - apply Z.min_r. lia.
Qed.

End LoopCalls.

(** ** Transfers and the driver *)

Section MoreMonadFacts.
Context {S A B : Type}.

Lemma bind_inv (m : M S A) (k : A -> M S B) h s b :
  result (bind m k h s) = Ret b ->
  exists a,
    result (m h s) = Ret a /\
    result (k a (h ++ emitted (m h s))%list (final (m h s))) = Ret b /\
    emitted (bind m k h s)
      = (emitted (m h s) ++ emitted (k a (h ++ emitted (m h s))%list (final (m h s))))%list /\
    final (bind m k h s) = final (k a (h ++ emitted (m h s))%list (final (m h s))).
Proof.
  unfold bind. destruct (result (m h s)) as [a|e|w]; cbn; intros H; try discriminate.
  exists a. repeat split. exact H.
Qed.

Lemma bind_modify (f : S -> S) (k : unit -> M S B) h s :
  bind (modify f) k h s = k tt h (f s).
Proof. unfold bind, modify. cbn. rewrite app_nil_r. apply run_eta. Qed.

End MoreMonadFacts.

Section HostProofs.
Context {R P W : Type} {SR : Scalar R} {LA : Linalg R}
        {PR : Preconditioner R P} {WM : WellModel R W} (CL0 : OpenCL).

Local Abbreviation solver := (Solver R P).

Lemma enqueue_run (e : event) h (s : solver) q :
  queue s = Some q -> enqueue (CL := no_faults CL0) e h s = Run s [e] (Ret tt).
Proof. intros Hq. unfold enqueue. rewrite bind_gets, Hq. reflexivity. Qed.

(** C6. With a reordering, [update_system] stores in [rb] the
    right-hand side permuted by [fromOrder], and [get_result] hands back
    the device solution permuted by [toOrder]; without one, [rb] is the
    right-hand side itself and the solution is read straight into the
    caller's array. So whenever the device holds the solution in the
    layout [update_system] gives a vector, and [toOrder] undoes
    [fromOrder] on it, the caller receives it in natural order. *)
Theorem reordering_of_rhs_and_result
    (vals b : list R) (wc : WellContributions W) (h : list event) (s : solver)
    (bm : BlockedMatrix R) (q : Device) :
  mat s = Some bm -> queue s = Some q ->
  let n := Z.to_nat (sN s) in
  let ru := update_system vals b wc h s in
  let rg := get_result (CL := no_faults CL0) h s in
  let layout x :=
    if is_NONE (opencl_ilu_reorder s) then x
    else reorderBlockedVectorByPattern (bm_Nb bm) x (fromOrder s) in
  let natural x :=
    if is_NONE (opencl_ilu_reorder s) then x
    else reorderBlockedVectorByPattern (bm_Nb bm) x (toOrder s) in
  rb (final ru) = layout b /\
  emitted ru = [] /\
  result rg = Ret (natural (firstn n (dmem s d_x))) /\
  emitted rg = [ReadBuffer d_x] /\
  forall x,
    firstn n (dmem s d_x) = layout x -> natural (layout x) = x ->
    result rg = Ret x.
Proof.
  intros Hm Hq. cbv zeta.
  assert (E1 : rb (final (update_system vals b wc h s))
               = (if is_NONE (opencl_ilu_reorder s) then b
                  else reorderBlockedVectorByPattern (bm_Nb bm) b (fromOrder s))
               /\ emitted (update_system vals b wc h s) = []).
  { unfold update_system. rewrite bind_gets, Hm, bind_modify, bind_gets. cbn [opencl_ilu_reorder set_mat].
    destruct (is_NONE (opencl_ilu_reorder s)); cbn [negb].
    - rewrite bind_modify. split; reflexivity.
    - rewrite !bind_gets, bind_modify. split; reflexivity. }
  assert (E2 : result (get_result (CL := no_faults CL0) h s)
               = Ret (if is_NONE (opencl_ilu_reorder s)
                      then firstn (Z.to_nat (sN s)) (dmem s d_x)
                      else reorderBlockedVectorByPattern (bm_Nb bm)
                             (firstn (Z.to_nat (sN s)) (dmem s d_x)) (toOrder s))
               /\ emitted (get_result (CL := no_faults CL0) h s) = [ReadBuffer d_x]).
  { unfold get_result. rewrite bind_gets.
    destruct (is_NONE (opencl_ilu_reorder s)); cbn [negb].
    - erewrite bind_Ret by (eapply enqueue_run; exact Hq). split; reflexivity.
    - erewrite bind_Ret by (eapply enqueue_run; exact Hq). cbv beta.
      rewrite bind_modify, bind_gets. cbn [mat set_rb]. rewrite Hm. split; reflexivity. }
  destruct E1 as [E1 E1']. destruct E2 as [E2 E2'].
  repeat split; try assumption.
  intros x Hx Hn. rewrite E2, Hx.
  destruct (is_NONE (opencl_ilu_reorder s)); [reflexivity | rewrite Hn; reflexivity].
Qed.

(** *** The state in which the solver is called *)

(** The transfers have succeeded: [x] is zero and [d_b] holds [rb]. *)
Definition uploaded (s : solver) : Prop :=
  err s = CL_SUCCESS /\ (exists q, queue s = Some q) /\
  dmem s d_x = repeat r0 (Z.to_nat (sN s)) /\
  dmem s d_b = firstn (Z.to_nat (sN s)) (rb s).

Lemma copy_system_to_gpu_uploads h (s : solver) :
  result (copy_system_to_gpu (CL := no_faults CL0) h s) = Ret tt ->
  uploaded (final (copy_system_to_gpu (CL := no_faults CL0) h s)) /\
  rb (final (copy_system_to_gpu (CL := no_faults CL0) h s)) = rb s.
Proof.
  unfold copy_system_to_gpu, uploaded. rewrite bind_gets.
  destruct (deref_rmat s) as [rm|]; [|discriminate].
  destruct s. destruct queue0; destruct opencl_ilu_reorder0;
    cbv -[firstn repeat Z.to_nat]; intros H; try discriminate;
    repeat split; eexists; reflexivity.
Qed.

Lemma update_system_on_gpu_uploads h (s : solver) :
  result (update_system_on_gpu (CL := no_faults CL0) h s) = Ret tt ->
  uploaded (final (update_system_on_gpu (CL := no_faults CL0) h s)) /\
  rb (final (update_system_on_gpu (CL := no_faults CL0) h s)) = rb s.
Proof.
  unfold update_system_on_gpu, uploaded. rewrite bind_gets.
  destruct (deref_rmat s) as [rm|]; [|discriminate].
  destruct s. destruct queue0;
    cbv -[firstn repeat Z.to_nat]; intros H; try discriminate;
    repeat split; eexists; reflexivity.
Qed.

Lemma update_system_rb (vals b : list R) (wc : WellContributions W) h (s : solver) wc' :
  result (update_system vals b wc h s) = Ret wc' ->
  is_NONE (opencl_ilu_reorder s) = true ->
  rb (final (update_system vals b wc h s)) = b /\
  opencl_ilu_reorder (final (update_system vals b wc h s)) = opencl_ilu_reorder s.
Proof.
  unfold update_system. rewrite bind_gets.
  destruct (mat s) as [bm|]; [|discriminate].
  rewrite bind_modify, bind_gets. cbn [opencl_ilu_reorder set_mat].
  intros _ Hn. rewrite Hn. cbn [negb]. rewrite bind_modify. split; reflexivity.
Qed.

Lemma create_preconditioner_rb (CL : OpenCL) :
  forall v, keeps (fun s : solver => rb s = v) (create_preconditioner (CL := CL)).
Proof.
  intros v. unfold create_preconditioner.
  repeat keeps_step; cbn; assumption.
Qed.

Lemma final_ret {S A} (a : A) h (s : S) : final (ret a h s) = s.
Proof. reflexivity. Qed.

Lemma initialize_keeps_reorder (CL : OpenCL) N_ nnz_ dim vals rows cols h (s : solver) :
  opencl_ilu_reorder (final (initialize (CL := CL) N_ nnz_ dim vals rows cols h s))
  = opencl_ilu_reorder s.
Proof.
  assert (K : keeps (fun s' : solver => opencl_ilu_reorder s' = opencl_ilu_reorder s)
                    (initialize (CL := CL) N_ nnz_ dim vals rows cols)).
  { unfold initialize, new_Buffer. repeat keeps_step; cbn; assumption. }
  exact (K h s eq_refl).
Qed.

Lemma analysis_keeps_reorder (CL : OpenCL) h (s : solver) :
  opencl_ilu_reorder
    (final ((if negb (analysis_done s) then analyze_matrix (CL := CL) else ret true) h s))
  = opencl_ilu_reorder s.
Proof.
  assert (K : keeps (fun s' : solver => opencl_ilu_reorder s' = opencl_ilu_reorder s)
                    (analyze_matrix (CL := CL))).
  { unfold analyze_matrix. repeat keeps_step; cbn; assumption. }
  destruct (analysis_done s); cbn [negb].
  - rewrite final_ret. reflexivity.
  - exact (K h s eq_refl).
Qed.

Lemma firstn_idem {A} (n : nat) (l : list A) : firstn n (firstn n l) = firstn n l.
Proof. rewrite firstn_firstn, Nat.min_id. reflexivity. Qed.

(** The common tail of both branches of [prepare_system]. *)
Lemma upload_tail (upload : M solver unit) (vals b : list R)
    (wc : WellContributions W) h (s : solver) wc' :
  (forall h' s', result (upload h' s') = Ret tt ->
                 uploaded (final (upload h' s')) /\ rb (final (upload h' s')) = rb s') ->
  let tail :=
    (wc1 <- update_system vals b wc ;;
     ok' <- create_preconditioner (CL := no_faults CL0) ;;
     if negb ok' then ret (Some BDA_SOLVER_CREATE_PRECONDITIONER_FAILED, wc1)
     else upload ;; ret (None, wc1))%monad in
  result (tail h s) = Ret (None, wc') ->
  uploaded (final (tail h s)) /\
  (is_NONE (opencl_ilu_reorder s) = true -> rb (final (tail h s)) = b).
Proof.
  intros Hup tail H. subst tail.
  apply bind_inv in H. destruct H as (wc1 & H1 & H & _ & F1). rewrite F1. clear F1.
  apply bind_inv in H. destruct H as (ok' & H2 & H & _ & F2). rewrite F2. clear F2.
  destruct ok'; cbn [negb] in H |- *; [|discriminate].
  apply bind_inv in H. destruct H as ([] & H3 & H & _ & F3). rewrite F3. clear F3.
  cbn [ret final].
  destruct (Hup _ _ H3) as [U Hrb].
  split; [exact U|].
  intros Hn. rewrite Hrb.
  destruct (update_system_rb _ _ _ _ _ H1 Hn) as [Hb _].
  apply (create_preconditioner_rb (no_faults CL0) (v := b)). exact Hb.
Qed.

Lemma prepare_system_uploaded
    (N_ nnz_ dim : Z) (vals : list R) (rows cols : list Z) (b : list R)
    (wc wc' : WellContributions W) (h : list event) (s : solver) :
  result (prepare_system (CL := no_faults CL0) N_ nnz_ dim vals rows cols b wc h s)
    = Ret (None, wc') ->
  uploaded (final (prepare_system (CL := no_faults CL0) N_ nnz_ dim vals rows cols b wc h s))
  /\ (is_NONE (opencl_ilu_reorder s) = true ->
      rb (final (prepare_system (CL := no_faults CL0) N_ nnz_ dim vals rows cols b wc h s)) = b).
Proof.
  unfold prepare_system. rewrite bind_gets.
  destruct (initialized s); cbn [negb].
  - apply upload_tail. apply update_system_on_gpu_uploads.
  - intros H.
    apply bind_inv in H. destruct H as ([] & _ & H & _ & F1). rewrite F1. clear F1.
    pose proof (initialize_keeps_reorder (no_faults CL0) N_ nnz_ dim vals rows cols h s) as E1.
    revert H E1.
    generalize (final (initialize (CL := no_faults CL0) N_ nnz_ dim vals rows cols h s)).
    generalize (h ++ emitted (initialize (CL := no_faults CL0) N_ nnz_ dim vals rows cols h s))%list.
    intros h1 s1 H E1.
    rewrite bind_gets in H |- *.
    apply bind_inv in H. destruct H as (ok & _ & H & _ & F2). rewrite F2. clear F2.
    pose proof (analysis_keeps_reorder (no_faults CL0) h1 s1) as E2.
    revert H E2.
    generalize (final ((if negb (analysis_done s1)
                        then analyze_matrix (CL := no_faults CL0) else ret true) h1 s1)).
    generalize (h1 ++ emitted ((if negb (analysis_done s1)
                        then analyze_matrix (CL := no_faults CL0) else ret true) h1 s1))%list.
    intros h2 s2 H E2.
    destruct ok; cbn [negb] in H |- *; [|discriminate H].
    destruct (@upload_tail (copy_system_to_gpu (CL := no_faults CL0)) vals b wc h2 s2 wc'
                (@copy_system_to_gpu_uploads) H) as [U Hb].
    split; [exact U|]. intros Hn. apply Hb. rewrite E2, E1. exact Hn.
Qed.

(** C2. Whenever [solve_system] goes on to call the solver (on an
    installation that raises no error, from any state of the object and
    so after any earlier solve), the set-up of [gpu_pbicgstab] returns
    and leaves x filled with zeros, r equal to the uploaded right-hand
    side with no product A x subtracted, and rw and p copies of r; the
    initial norm is the norm of that r. Without reordering the uploaded
    right-hand side is the caller's b. *)
Theorem every_solve_starts_from_zero
    (N_ nnz_ dim : Z) (vals : list R) (rows cols : list Z) (b : list R)
    (wc wc' : WellContributions W) (h : list event) (s : solver) :
  let r1 := prepare_system (CL := no_faults CL0) N_ nnz_ dim vals rows cols b wc h s in
  result r1 = Ret (None, wc') ->
  let n := Z.to_nat (sN (final r1)) in
  exists s2,
    gpu_pbicgstab_setup (CL := no_faults CL0) (h ++ emitted r1)%list (final r1)
      = Run s2 setup_trace (Ret (norm (dmem s2 d_r) (sN s2))) /\
    dmem s2 d_x = repeat r0 n /\
    dmem s2 d_r = firstn n (rb (final r1)) /\
    dmem s2 d_b = dmem s2 d_r /\
    dmem s2 d_rw = dmem s2 d_r /\
    dmem s2 d_p = dmem s2 d_r /\
    (is_NONE (opencl_ilu_reorder s) = true -> rb (final r1) = b).
Proof.
  cbv zeta. intros H.
  apply prepare_system_uploaded in H. destruct H as [(He & (q & Hq) & Hx & Hb) Hrb].
  set (r1 := prepare_system (CL := no_faults CL0) N_ nnz_ dim vals rows cols b wc h s) in *.
  clearbody r1.
  destruct (gpu_pbicgstab_setup_run CL0 (h ++ emitted r1)%list _ Hq He)
    as (s2 & E & F & Ex & Er & Erw & Ep & Ev).
  destruct F as (_ & _ & _ & FN & _ & _ & _ & _ & _ & Fb).
  exists s2.
  assert (Er' : dmem s2 d_r = firstn (Z.to_nat (sN (final r1))) (rb (final r1)))
    by (rewrite Er, Hb; apply firstn_idem).
  split; [rewrite E, Er, FN; reflexivity|].
  split; [rewrite Ex; exact Hx|].
  split; [exact Er'|].
  split; [rewrite Fb, Hb, Er'; reflexivity|].
  split; [rewrite Erw, Er'; apply firstn_idem|].
  split; [rewrite Ep, Er'; apply firstn_idem|].
  exact Hrb.
Qed.

End HostProofs.

(** ** The driver, on any installation *)

Section DriverProofs.
Context {R P W : Type} {SR : Scalar R} {LA : Linalg R}
        {PR : Preconditioner R P} {WM : WellModel R W} {CL : OpenCL}.

Local Abbreviation solver := (Solver R P).

Lemma bind_issue {B} (e : event) (k : unit -> M solver B) h s :
  bind (issue e) k h s =
  match cl_fault h e with
  | Some error => Run s [e] (Throw (cl_error error))
  | None => Run (final (k tt (h ++ [e])%list s))
                (e :: emitted (k tt (h ++ [e])%list s))
                (result (k tt (h ++ [e])%list s))
  end.
Proof. unfold bind, issue. cbn. destruct (cl_fault h e); reflexivity. Qed.

(** *** Classes of traces *)















(** *** What the calls to the preconditioner return *)




Lemma bind_prefix {A B} (m : M solver A) (k : A -> M solver B) h s :
  exists t, emitted (bind m k h s) = (emitted (m h s) ++ t)%list.
Proof.
  unfold bind. destruct (result (m h s)); cbn.
  - eexists; reflexivity.
  - exists []. symmetry. apply app_nil_r.
  - exists []. symmetry. apply app_nil_r.
Qed.



(** *** The status against the calls made *)



Ltac flags :=
  unfold analysis_failed, creation_failed, solver_started, analysis_ran in *;
  rewrite ?existsb_app.







(** *** The object after a failed analysis *)




Lemma loop_keeps (I : solver -> Prop) fuel (wc : WellContributions W) norm_0 :
  (forall l, keeps I (first_half_step wc l)) ->
  (forall l, keeps I (second_half_step wc l)) ->
  forall l, keeps I (pbicgstab_loop (P := P) fuel wc norm_0 l).
Proof.
  intros H1 H2. induction fuel as [|fuel IH]; intros l; cbn [pbicgstab_loop].
  - apply keeps_stuck.
  - repeat first [apply H1 | apply H2 | apply IH | keeps_step].
Qed.


Lemma final_modify (f : solver -> solver) h s : final (modify f h s) = f s.
Proof. reflexivity. Qed.


Unset Implicit Arguments.

(** The try block of [initialize], lines 393-437. *)
Definition initialize_try (vals : list R) (rows cols : list Z) : M solver unit :=
  try_catch
    (p <- gets (@prec R P) ;;
     match p with
     | None => stuck NullDereference
     | Some _ =>
     modify (fun s =>
       set_mat (Some {| bm_Nb := Nb s; bm_nnzbs := nnzb s;
                        bm_block_size := block_size; nnzValues := vals;
                        colIndices := cols; rowPointers := rows |}) s) ;;
     for_each vector_buffers new_Buffer ;;
     for_each matrix_buffers new_Buffer ;;
     reorder <- gets (@opencl_ilu_reorder R P) ;;
     when (negb (is_NONE reorder))
       (modify (fun s => set_rb (repeat r0 (Z.to_nat (sN s))) s) ;;
        new_Buffer d_toOrder)
     end)
    (rethrow "OpenCL Error: ").

Lemma initialize_unfold N_ nnz_ dim vals rows cols :
  initialize (P := P) N_ nnz_ dim vals rows cols =
  (modify (set_sN N_) ;;
   modify (set_nnz nnz_) ;;
   modify (set_nnzb (Z.quot (Z.quot nnz_ block_size) block_size)) ;;
   modify (fun s => set_Nb (Z.quot (sN s + dim - 1) dim) s) ;;
   initialize_try vals rows cols ;;
   modify (set_initialized true)).
Proof. reflexivity. Qed.






Set Implicit Arguments.










End DriverProofs.


(** ** The constructor *)

Section ConstructorProofs.
Context {R P : Type} {PR : Preconditioner R P} {CL : OpenCL}.

Local Abbreviation solver := (Solver R P).

Unset Implicit Arguments.

Lemma first_fault_app (h a b : list event) :
  first_fault h (a ++ b) =
  match first_fault h a with
  | Some error => Some error
  | None => first_fault (h ++ a) b
  end.
Proof.
  revert h. induction a as [|e a IH]; intros h; cbn [first_fault app].
  - rewrite app_nil_r. reflexivity.
  - destruct (if raises e then cl_fault h e else None); [reflexivity|].
    rewrite IH, <- app_assoc. reflexivity.
Qed.

(** How a run made after the calls [h] may end: it returns and [V]
    holds, it throws the first [cl::Error] the installation raised, or
    no error was raised and it throws a [std::logic_error] whose message
    is in [E]. *)
Definition outcome_ok {A} (V : Prop) (E : string -> Prop) (h : list event)
    (r : run solver A) : Prop :=
  match result r, first_fault h (emitted r) with
  | Ret _, None => V
  | Throw (cl_error e), Some e' => e = e'
  | Throw (logic_error msg), None => E msg
  | _, _ => False
  end.

(** The same once the handlers of the try block have run. *)
Definition caught {A} (prefix : string) (V : Prop) (E : string -> Prop)
    (h : list event) (r : run solver A) : Prop :=
  match result r, first_fault h (emitted r) with
  | Ret _, None => V
  | Throw (logic_error msg), Some error => msg = OpenCL_Error_message prefix error
  | Throw (logic_error msg), None => E msg
  | _, _ => False
  end.

(** A block that only calls the API. *)
Definition calls_only (m : M solver unit) : Prop :=
  forall h s, final (m h s) = s /\ outcome_ok True (fun _ => False) h (m h s).

Lemma calls_only_ret : calls_only (ret tt).
Proof. intros h s. split; reflexivity. Qed.

Lemma calls_only_issue e : raises e = true -> calls_only (issue e).
Proof.
  intros He h s. split; [reflexivity|].
  unfold outcome_ok, issue. cbn. rewrite He.
  destruct (cl_fault h e); reflexivity.
Qed.

Lemma calls_only_issue_c e : raises e = false -> calls_only (@issue_c R P e).
Proof.
  intros He h s. split; [reflexivity|].
  unfold outcome_ok, issue_c. cbn. rewrite He. exact I.
Qed.

Lemma calls_only_seq (m k : M solver unit) :
  calls_only m -> calls_only k -> calls_only (m ;; k).
Proof.
  intros Hm Hk h s. destruct (Hm h s) as [Fm Om].
  unfold outcome_ok in Om. unfold bind, outcome_ok.
  destruct (result (m h s)) as [[]|[msg|e]|w]; cbn.
  - destruct (first_fault h (emitted (m h s))) eqn:Ef; [contradiction|].
    rewrite first_fault_app, Ef, Fm.
    destruct (Hk (h ++ emitted (m h s))%list s) as [Fk Ok]. split; [exact Fk | exact Ok].
  - destruct (first_fault h (emitted (m h s))); contradiction.
  - split; [exact Fm | exact Om].
  - destruct (first_fault h (emitted (m h s))); contradiction.
Qed.

Lemma calls_only_for_each {A} (l : list A) (body : A -> M solver unit) :
  (forall a, calls_only (body a)) -> calls_only (for_each l body).
Proof.
  intros Hb. induction l as [|a l IH]; cbn [for_each].
  - apply calls_only_ret.
  - apply calls_only_seq; [apply Hb | exact IH].
Qed.

Lemma calls_only_when c (m : M solver unit) : calls_only m -> calls_only (when c m).
Proof. intros Hm. destruct c; [exact Hm | apply calls_only_ret]. Qed.

(** *** Steps of a run *)

Section Steps.
Context {A : Type} (V : Prop) (E : string -> Prop).

Lemma ok_issue_bind e (k : unit -> M solver A) h s :
  raises e = true ->
  (cl_fault h e = None -> outcome_ok V E (h ++ [e]) (k tt (h ++ [e])%list s)) ->
  outcome_ok V E h (bind (issue e) k h s).
Proof.
  intros He Hk. rewrite bind_issue.
  destruct (cl_fault h e) as [error|] eqn:Ef.
  - unfold outcome_ok. cbn. rewrite He, Ef. reflexivity.
  - specialize (Hk eq_refl). unfold outcome_ok in *. cbn. rewrite He, Ef. exact Hk.
Qed.

Lemma ok_issue_last e h (s : solver) :
  raises e = true -> V -> outcome_ok (A := unit) V E h (issue e h s).
Proof.
  intros He Hv. unfold outcome_ok, issue. cbn. rewrite He.
  destruct (cl_fault h e); [reflexivity | exact Hv].
Qed.

Lemma ok_block (m : M solver unit) (k : unit -> M solver A) h s :
  calls_only m ->
  (forall h', outcome_ok V E h' (k tt h' s)) ->
  outcome_ok V E h (bind m k h s).
Proof.
  intros Hm Hk. destruct (Hm h s) as [Fm Om].
  unfold outcome_ok in Om. unfold bind, outcome_ok.
  destruct (result (m h s)) as [[]|[msg|e]|w]; cbn.
  - destruct (first_fault h (emitted (m h s))) eqn:Ef; [contradiction|].
    rewrite first_fault_app, Ef, Fm. apply Hk.
  - destruct (first_fault h (emitted (m h s))); contradiction.
  - exact Om.
  - destruct (first_fault h (emitted (m h s))); contradiction.
Qed.

Lemma ok_throw msg h (s : solver) :
  E msg -> outcome_ok (A := A) V E h (throw (logic_error msg) h s).
Proof. intros He. exact He. Qed.

Lemma caught_try (m : M solver A) prefix h s :
  outcome_ok V E h (m h s) ->
  caught prefix V E h (try_catch m (rethrow prefix) h s).
Proof.
  unfold outcome_ok, caught, try_catch.
  destruct (result (m h s)) as [a|[msg|e]|w] eqn:Er; cbn.
  - rewrite Er. intros H; exact H.
  - rewrite app_nil_r. destruct (first_fault h (emitted (m h s))); [contradiction|].
    intros H; exact H.
  - rewrite app_nil_r. destruct (first_fault h (emitted (m h s))); [|contradiction].
    intros ->. reflexivity.
  - rewrite Er. intros H; exact H.
Qed.

End Steps.

Lemma nth_error_in_range {X} (l : list X) (n : N) :
  (N.of_nat (List.length l) <=? n)%N = false -> exists x, nth_error l (N.to_nat n) = Some x.
Proof.
  intros H. apply N.leb_gt in H.
  destruct (nth_error l (N.to_nat n)) as [x|] eqn:En; [eauto|].
  apply nth_error_None in En. lia.
Qed.

(** Lines 80-207, before the handlers. *)
Lemma select_device_ok h (s : solver) :
  outcome_ok (chosen_exist (platformID s) (deviceID s) = true)
             (device_error (platformID s) (deviceID s)) h (select_device h s).
Proof.
  unfold select_device.
  apply ok_issue_bind; [reflexivity | intros _].
  destruct (Nat.eqb (List.length cl_platforms) 0) eqn:E0.
  { apply ok_throw. left. split; [|reflexivity].
    apply Nat.eqb_eq in E0. apply length_zero_iff_nil. exact E0. }
  rewrite bind_gets.
  apply ok_block.
  { apply calls_only_when, calls_only_for_each. intros i.
    apply calls_only_for_each. intros key. apply calls_only_issue. reflexivity. }
  intros h1. rewrite bind_gets.
  destruct (N.of_nat (List.length cl_platforms) <=? platformID s)%N eqn:E1.
  { apply ok_throw. right. left. split; [|reflexivity]. apply N.leb_le. exact E1. }
  do 3 (apply ok_issue_bind; [reflexivity | intros _]).
  destruct (nth_error_in_range _ _ E1) as [platform En]. rewrite En.
  rewrite bind_modify.
  destruct (Nat.eqb (List.length (platform_devices platform)) 0) eqn:E2.
  { apply ok_throw. right. right. exists platform. split; [exact En|]. left.
    split; [|reflexivity]. apply Nat.eqb_eq in E2. apply length_zero_iff_nil. exact E2. }
  apply ok_block.
  { apply calls_only_when, calls_only_for_each. intros i. apply calls_only_seq.
    - apply calls_only_for_each. intros key. apply calls_only_issue. reflexivity.
    - apply calls_only_for_each. intros key. apply calls_only_issue_c. reflexivity. }
  intros h2. rewrite bind_gets.
  change (deviceID (set_devices (platform_devices platform) s)) with (deviceID s).
  destruct (N.of_nat (List.length (platform_devices platform)) <=? deviceID s)%N eqn:E3.
  { apply ok_throw. right. right. exists platform. split; [exact En|]. right.
    split; [|reflexivity]. apply N.leb_le. exact E3. }
  do 2 (apply ok_issue_bind; [reflexivity | intros _]).
  destruct (nth_error_in_range _ _ E3) as [chosen Ec]. rewrite Ec.
  rewrite bind_modify. apply ok_issue_bind; [reflexivity | intros _].
  rewrite bind_modify. apply ok_issue_bind; [reflexivity | intros _].
  rewrite bind_modify. apply ok_issue_last; [reflexivity|].
  unfold chosen_exist. rewrite En. apply Nat.ltb_lt. apply N.leb_gt in E3. lia.
Qed.

(** Lines 54-76. *)
Lemma select_preconditioner_run linsolver h (s : solver) :
  select_preconditioner linsolver h s =
  match selected linsolver with
  | Some kind =>
      Run (set_prec (Some (Preconditioner_create kind (verbosity s) (opencl_ilu_reorder s))) s)
          [] (Ret tt)
  | None =>
      Run s []
          (Throw (logic_error
             (if String.eqb linsolver "cpr_trueimpes"
              then "Error openclSolver does not support --linsolver=cpr_trueimpes"
              else "Error unknown value for argument --linsolver, " +++ linsolver)))
  end.
Proof.
  unfold select_preconditioner, selected.
  destruct (String.eqb linsolver "ilu0"); [reflexivity|].
  destruct (String.eqb linsolver "cpr_quasiimpes"); [reflexivity|].
  destruct (String.eqb linsolver "isai"); [reflexivity|].
  destruct (String.eqb linsolver "cpr_trueimpes"); reflexivity.
Qed.

Lemma try_select_device_head prefix h (s : solver) :
  hd_error (emitted (try_catch select_device (rethrow prefix) h s)) = Some PlatformGet.
Proof.
  assert (E : exists t, emitted (select_device h s) = PlatformGet :: t).
  { unfold select_device.
    match goal with |- context [emitted (bind ?m ?k h s)] =>
      destruct (bind_prefix m k h s) as [t ->] end.
    exists t. reflexivity. }
  destruct E as [t E]. unfold try_catch. cbv zeta.
  destruct (result (select_device h s)) as [a|e|w]; rewrite ?E; try reflexivity.
  destruct (rethrow prefix e); cbn [emitted]; rewrite ?E; reflexivity.
Qed.

Lemma try_select_device_keeps_prec prefix h (s : solver) :
  prec (final (try_catch select_device (rethrow prefix) h s)) = prec s.
Proof.
  assert (K : keeps (fun s' : solver => prec s' = prec s)
                (try_catch select_device (rethrow prefix))).
  { unfold select_device. repeat keeps_step; cbn; assumption. }
  exact (K h s eq_refl).
Qed.

(** C3. Whatever the installation and the other arguments: the
    constructor called with linsolver = cpr_trueimpes throws the error
    of line 66, and called with a string that is none of ilu0,
    cpr_quasiimpes, isai and cpr_trueimpes it throws the error of line
    68, whose message ends with the string; in both cases it has made no
    call to OpenCL and the object is as the initialiser list left it,
    without preconditioner, context or queue. Called with ilu0,
    cpr_quasiimpes or isai it creates the BILU0, CPR or BISAI
    preconditioner and goes on to enumerate the platforms. *)
Theorem linsolver_selection
    (verbosity_ maxit_ : Z) (tolerance_ : R) (platformID_ deviceID_ : N)
    (reorder : ILUReorder) (linsolver : string) (h : list event) :
  let r := openclSolverBackend verbosity_ maxit_ tolerance_ platformID_ deviceID_
                               reorder linsolver h in
  let untouched :=
    emitted r = [] /\
    final r = BdaSolver verbosity_ maxit_ tolerance_ platformID_ deviceID_ reorder in
  (linsolver = "cpr_trueimpes"%string ->
   result r = Throw (logic_error
                "Error openclSolver does not support --linsolver=cpr_trueimpes") /\
   untouched) /\
  (linsolver <> "ilu0"%string -> linsolver <> "cpr_quasiimpes"%string ->
   linsolver <> "isai"%string -> linsolver <> "cpr_trueimpes"%string ->
   result r = Throw (logic_error
                ("Error unknown value for argument --linsolver, " +++ linsolver)) /\
   untouched) /\
  (forall kind,
     In (linsolver, kind)
        [("ilu0"%string, BILU0); ("cpr_quasiimpes"%string, CPR); ("isai"%string, BISAI)] ->
     hd_error (emitted r) = Some PlatformGet /\
     prec (final r) = Some (Preconditioner_create kind verbosity_ reorder)).
Proof.
  cbv zeta. unfold openclSolverBackend, openclSolverBackend_body.
  set (s0 := BdaSolver verbosity_ maxit_ tolerance_ platformID_ deviceID_ reorder).
  pose proof (select_preconditioner_run linsolver h s0) as Es.
  split; [|split].
  - intros ->. unfold bind. rewrite Es. repeat split.
  - intros N1 N2 N3 N4.
    apply String.eqb_neq in N1, N2, N3, N4.
    unfold selected in Es. rewrite N1, N2, N3, N4 in Es.
    unfold bind. rewrite Es. cbn. repeat split.
  - intros kind Hk.
    assert (Hsel : selected linsolver = Some kind).
    { cbn in Hk. destruct Hk as [Hk|[Hk|[Hk|[]]]]; inversion Hk; reflexivity. }
    rewrite Hsel in Es.
    erewrite bind_Ret by exact Es. cbn [emitted final app].
    split; [apply try_select_device_head|].
    rewrite try_select_device_keeps_prec. reflexivity.
Qed.

(** C8. Whatever the installation and the arguments, the constructor
    ends in one of three ways. It returns, and then no call has raised
    an error and the chosen platform and the chosen device exist: it
    does not return when there is no platform, when platformID is not
    less than the number of platforms, when the chosen platform has no
    device or when deviceID is not less than the number of devices. Or
    a call has raised [cl::Error], and it throws [std::logic_error] with
    the text of line 211 built from what() and err() of that error and
    from getErrorString. Or no call has raised an error and it throws
    [std::logic_error], because the selector string is not accepted or
    with one of the four messages of the try block, each under the
    condition it names. It never lets a [cl::Error] escape and never
    dereferences a platform or device that does not exist. *)
Theorem construction_errors_are_structured
    (verbosity_ maxit_ : Z) (tolerance_ : R) (platformID_ deviceID_ : N)
    (reorder : ILUReorder) (linsolver : string) (h : list event) :
  let r := openclSolverBackend verbosity_ maxit_ tolerance_ platformID_ deviceID_
                               reorder linsolver h in
  match result r, first_fault h (emitted r) with
  | Ret _, None => chosen_exist platformID_ deviceID_ = true
  | Throw (logic_error msg), Some error =>
      msg = OpenCL_Error_message "OpenCL Error: " error
  | Throw (logic_error msg), None =>
      selected linsolver = None \/ device_error platformID_ deviceID_ msg
  | _, _ => False
  end.
Proof.
  cbv zeta. unfold openclSolverBackend, openclSolverBackend_body.
  set (s0 := BdaSolver verbosity_ maxit_ tolerance_ platformID_ deviceID_ reorder).
  pose proof (select_preconditioner_run linsolver h s0) as Es.
  destruct (selected linsolver) as [kind|] eqn:Hsel.
  - erewrite bind_Ret by exact Es. cbn [emitted result app].
    match goal with |- context [select_device] =>
      pose proof (caught_try _ _ select_device "OpenCL Error: " (h ++ [])%list _
                    (select_device_ok (h ++ [])%list
                       (set_prec (Some (Preconditioner_create kind (verbosity s0)
                                          (opencl_ilu_reorder s0))) s0))) as Hc
    end.
    unfold caught in Hc. rewrite app_nil_r in *.
    match type of Hc with
    | context [result ?r] =>
        destruct (result r) as [a|[msg|e]|w];
        destruct (first_fault h (emitted r)); try exact Hc
    end.
    right. exact Hc.
  - unfold bind. rewrite Es. cbn. left. reflexivity.
Qed.

Set Implicit Arguments.

End ConstructorProofs.

(** ** The theorems on the concrete installation *)



(** A second call of [solve_system] on an object that holds the
    solution [3; 4] of a first one. *)
Lemma every_solve_starts_from_zero_witness :
  let s := final (toy_solved 200 3 1 NONE [3; 4]) in
  let r1 := prepare_system (CL := no_faults one_device) 2 4 1 toy_vals toy_rows
                           toy_cols [5; 6] no_wells [] s in
  let n := Z.to_nat (sN (final r1)) in
  dmem s d_x = [3; 4] /\
  result r1 = Ret (None, no_wells) /\
  exists s2,
    gpu_pbicgstab_setup (CL := no_faults one_device) ([] ++ emitted r1)%list (final r1)
      = Run s2 setup_trace (Ret (norm (dmem s2 d_r) (sN s2))) /\
    dmem s2 d_x = repeat r0 n /\
    dmem s2 d_r = firstn n (rb (final r1)) /\
    dmem s2 d_b = dmem s2 d_r /\
    dmem s2 d_rw = dmem s2 d_r /\
    dmem s2 d_p = dmem s2 d_r /\
    (is_NONE (opencl_ilu_reorder s) = true -> rb (final r1) = [5; 6]).
Proof.
  cbv zeta. split; [vm_compute; reflexivity|]. split; [vm_compute; reflexivity|].
  apply (every_solve_starts_from_zero one_device 2 4 1 toy_vals toy_rows toy_cols
           [5; 6] no_wells (wc' := no_wells) []
           (final (toy_solved 200 3 1 NONE [3; 4]))).
  vm_compute. reflexivity.
Defined.

(** [maxit = -1]: the loop is not entered and the result says converged. *)
Lemma negative_maxit_reports_converged_witness :
  let s := toy_ready (-1) 1 NONE [3; 4] no_wells in
  let r := gpu_pbicgstab (CL := no_faults one_device) 1 no_wells [] s in
  maxit s < 0 /\ queue s = Some {| device_id := 7 |} /\ err s = CL_SUCCESS /\
  emitted r = setup_trace /\
  exists res,
    result r = Ret res /\
    converged res = true /\ iterations res = 2 * float_of_int (maxit s).
Proof.
  cbv zeta.
  split; [vm_compute; reflexivity|]. split; [vm_compute; reflexivity|].
  split; [vm_compute; reflexivity|].
  apply (negative_maxit_reports_converged one_device 0%nat no_wells []
           (toy_ready (-1) 1 NONE [3; 4] no_wells) (q := {| device_id := 7 |}));
    vm_compute; reflexivity.
Defined.

(** The object after a solve with level scheduling: the device holds
    the solution in reordered layout, [4; 3]. *)
Lemma reordering_of_rhs_and_result_witness :
  let s := final (toy_solved 200 3 1 LEVEL_SCHEDULING [3; 4]) in
  let bm := {| bm_Nb := 2; bm_nnzbs := 4; bm_block_size := 1;
               nnzValues := toy_vals; colIndices := toy_cols;
               rowPointers := toy_rows |} in
  let n := Z.to_nat (sN s) in
  let ru := update_system toy_vals [5; 6] no_wells [] s in
  let rg := get_result (CL := no_faults one_device) [] s in
  let layout x :=
    if is_NONE (opencl_ilu_reorder s) then x
    else reorderBlockedVectorByPattern (bm_Nb bm) x (fromOrder s) in
  let natural x :=
    if is_NONE (opencl_ilu_reorder s) then x
    else reorderBlockedVectorByPattern (bm_Nb bm) x (toOrder s) in
  mat s = Some bm /\ queue s = Some {| device_id := 7 |} /\
  dmem s d_x = [4; 3] /\
  rb (final ru) = layout [5; 6] /\
  emitted ru = [] /\
  result rg = Ret (natural (firstn n (dmem s d_x))) /\
  emitted rg = [ReadBuffer d_x] /\
  forall x,
    firstn n (dmem s d_x) = layout x -> natural (layout x) = x ->
    result rg = Ret x.
Proof.
  cbv zeta. split; [vm_compute; reflexivity|]. split; [vm_compute; reflexivity|].
  split; [vm_compute; reflexivity|].
  pose proof (@reordering_of_rhs_and_result Z toy_prec (nat * Z) _ one_device
                toy_vals [5; 6] no_wells []
                (final (toy_solved 200 3 1 LEVEL_SCHEDULING [3; 4]))
                {| bm_Nb := 2; bm_nnzbs := 4; bm_block_size := 1;
                   nnzValues := toy_vals; colIndices := toy_cols;
                   rowPointers := toy_rows |}
                {| device_id := 7 |}) as H.
  cbv zeta in H. refine (H _ _); vm_compute; reflexivity.
Defined.

(** C4 as the claim states it fails when the well contributions hold
    no well: the sparse product [Kspmv d_pw d_v] of the first half step
    is followed by [Kdot d_rw d_v], not by an application of the wells. *)
Lemma spmv_without_wells_is_not_followed :
  wells_follow_spmv
    (emitted (gpu_pbicgstab (CL := no_faults one_device) 2 no_wells []
                (toy_ready 1 0 NONE [100; 200] no_wells))) = false.
Proof. vm_compute. reflexivity. Qed.

(** C9 at [maxit = -1]: the right-hand side is zero, no half step is
    taken, and the result says converged, with a negative number of
    iterations. *)
Theorem zero_rhs_negative_maxit_reports_converged :
  result (toy_solved 200 (-1) 1 NONE [0; 0])
  = Ret (BDA_SOLVER_SUCCESS,
         {| iterations := 2 * float_of_int (-1); reduction := 0; conv_rate := 0;
            converged := true |},
         no_wells).
Proof. vm_compute. reflexivity. Qed.

(** * Further properties of the code *)

(** ** The loop when [maxit] is in range *)

(** The number of sparse products among the calls [t]. *)
Definition spmv_calls (t : list event) : nat := List.length (filter is_Kspmv t).

Section LoopInRange.
Context {R P W : Type} {SR : Scalar R} {LA : Linalg R}
        {PR : Preconditioner R P} {WM : WellModel R W} (CL0 : OpenCL).

Local Abbreviation solver := (Solver R P).

Unset Implicit Arguments.

Lemma spmv_calls_app (a b : list event) :
  spmv_calls (a ++ b) = (spmv_calls a + spmv_calls b)%nat.
Proof. unfold spmv_calls. rewrite filter_app, length_app. reflexivity. Qed.

Lemma spmv_calls_half_steps (h : half) (wc : WellContributions W) :
  spmv_calls (first_half_trace h wc) = 1%nat /\ spmv_calls (second_half_trace wc) = 1%nat.
Proof.
  unfold first_half_trace, second_half_trace.
  destruct (it_gt_1 h); destruct (0 <? getNumWells wc); split; reflexivity.
Qed.

(** The two half steps on an installation that raises no error: they
    return, leave the counter alone and report the norm of r. *)
Lemma first_half_step_returns wc l h (s : solver) pr :
  prec s = Some pr ->
  exists s1 l1,
    first_half_step (CL := no_faults CL0) wc l h s
      = Run s1 (first_half_trace (it l) wc) (Ret l1) /\
    it l1 = it l /\ cur_norm l1 = norm (dmem s1 d_r) (sN s1) /\ frame s s1.
Proof.
  intros Hp. destruct s; simpl in Hp; subst.
  unfold first_half_step, apply_wellContributions, first_half_trace.
  destruct (it_gt_1 (it l)) eqn:Hit; destruct (0 <? getNumWells wc) eqn:Hw.
  all: do 2 eexists; split;
    [ cbv -[axpy custom WellContributionsOCL_apply]; reflexivity | repeat split ].
Qed.

Lemma second_half_step_returns wc l h (s : solver) pr :
  prec s = Some pr ->
  exists s1 l1,
    second_half_step (CL := no_faults CL0) wc l h s
      = Run s1 (second_half_trace wc) (Ret l1) /\
    it l1 = it l /\ cur_norm l1 = norm (dmem s1 d_r) (sN s1) /\ frame s s1.
Proof.
  intros Hp. destruct s; simpl in Hp; subst.
  unfold second_half_step, apply_wellContributions, second_half_trace.
  destruct (0 <? getNumWells wc) eqn:Hw.
  all: do 2 eexists; split;
    [ cbv -[axpy custom WellContributionsOCL_apply]; reflexivity | repeat split ].
Qed.

(** How the loop was left, seen from the locals it returns: by a
    [break], at a half step whose norm passed the test, or by the
    condition of the [for], the counter at [maxit + 0.5]. *)
Definition left_by_test (tol norm_0 : R) (mx : Z) (l' : @locals R) : Prop :=
  rltb (cur_norm l') (rmul tol norm_0) = true /\ 1 <= it l' <= 2 * mx.

Definition left_by_count (mx : Z) (l' : @locals R) : Prop :=
  it l' = 2 * mx + 1.

Lemma frame_maxit (s s' : solver) :
  frame s s' -> maxit s' = maxit s /\ tolerance s' = tolerance s /\ prec s' = prec s.
Proof. unfold frame. intros H. repeat split; apply H. Qed.

Lemma frame_compose (s1 s2 s3 : solver) : frame s1 s2 -> frame s2 s3 -> frame s1 s3.
Proof.
  unfold frame. intros H1 H2.
  repeat match goal with H : _ /\ _ |- _ => destruct H end.
  repeat split; congruence.
Qed.

Lemma it_lt_maxit_in_range (h mx : Z) :
  0 <= mx < 2 ^ 23 -> it_lt_maxit h mx = (h <? 2 * mx).
Proof.
  intros Hm. unfold it_lt_maxit. rewrite float_of_int_small; [reflexivity|].
  change (2 ^ 24) with 16777216. change (2 ^ 23) with 8388608 in Hm. lia.
Qed.

Lemma add_half_in_range (h : Z) : h < 2 ^ 24 -> add_half h = h + 1.
Proof.
  intros Hh. unfold add_half. destruct (h <? 2 ^ 24) eqn:E; [reflexivity|].
  apply Z.ltb_ge in E. lia.
Qed.

(** With [n] passes left and more fuel than that, the loop returns. *)
Lemma loop_in_range pr (wc : WellContributions W) norm_0 :
  forall (n fuel : nat) l h (s : solver),
    prec s = Some pr -> 0 <= maxit s < 2 ^ 23 ->
    it l = 2 * (maxit s - Z.of_nat n) + 1 -> Z.of_nat n <= maxit s ->
    (n < fuel)%nat ->
    exists s' l' t,
      pbicgstab_loop (CL := no_faults CL0) fuel wc norm_0 l h s = Run s' t (Ret l') /\
      frame s s' /\ (spmv_calls t <= 2 * n)%nat /\
      ((left_by_test (tolerance s) norm_0 (maxit s) l' /\
        exists v, cur_norm l' = norm v (sN s)) \/
       (left_by_count (maxit s) l' /\
        spmv_calls t = (2 * n)%nat /\
        (l' = l \/ rltb (cur_norm l') (rmul (tolerance s) norm_0) = false))).
Proof.
  induction n as [|n IH]; intros fuel l h s Hp Hm Hit Hn Hf;
    (destruct fuel as [|fuel]; [lia|]).
  - exists s, l, []. split.
    + apply loop_not_entered. rewrite it_lt_maxit_in_range by exact Hm.
      apply Z.ltb_ge. lia.
    + split; [apply frame_refl|]. split; [cbn; lia|]. right.
      split; [unfold left_by_count; lia|]. split; [reflexivity|]. left. reflexivity.
  - cbn [pbicgstab_loop]. rewrite !bind_gets.
    rewrite it_lt_maxit_in_range by exact Hm.
    assert (Hlt : (it l <? 2 * maxit s) = true) by (apply Z.ltb_lt; lia).
    rewrite Hlt.
    destruct (first_half_step_returns wc l h s pr Hp) as (s1 & l1 & E1 & I1 & N1 & F1).
    erewrite bind_Ret by exact E1. cbn [result final emitted].
    destruct (spmv_calls_half_steps (it l) wc) as [C1 C2].
    destruct (frame_maxit _ _ F1) as (M1 & T1 & P1).
    destruct (rltb (cur_norm l1) (rmul (tolerance s) norm_0)) eqn:B1.
    { exists s1, l1, (first_half_trace (it l) wc ++ [])%list. split; [reflexivity|].
      split; [exact F1|]. split; [rewrite app_nil_r, C1; lia|]. left.
      split; [split; [exact B1 | lia]|].
      exists (dmem s1 d_r). rewrite N1. f_equal. apply F1. }
    assert (Hp1 : prec s1 = Some pr) by congruence.
    match goal with |- context [bind (second_half_step wc (step_it l1)) _ ?hh s1] =>
      destruct (second_half_step_returns wc (step_it l1) hh s1 pr Hp1)
        as (s2 & l2 & E2 & I2 & N2 & F2)
    end.
    erewrite bind_Ret by exact E2. cbn [result final emitted].
    assert (Hi2 : it l2 = it l + 1).
    { rewrite I2. cbn [step_it it]. rewrite add_half_in_range; [lia|].
      change (2 ^ 24) with 16777216. change (2 ^ 23) with 8388608 in Hm. lia. }
    pose proof (frame_compose _ _ _ F1 F2) as F12.
    destruct (frame_maxit _ _ F12) as (M2 & T2 & P2).
    destruct (rltb (cur_norm l2) (rmul (tolerance s) norm_0)) eqn:B2.
    { eexists s2, l2, _. split; [reflexivity|].
      split; [exact F12|]. split; [rewrite !spmv_calls_app, C1, C2; cbn; lia|]. left.
      split; [split; [exact B2 | lia]|].
      exists (dmem s2 d_r). rewrite N2. f_equal. apply F12. }
    assert (Hp2 : prec s2 = Some pr) by congruence.
    assert (Hm2 : 0 <= maxit s2 < 2 ^ 23) by (rewrite M2; exact Hm).
    assert (Hit2 : it (step_it l2) = 2 * (maxit s2 - Z.of_nat n) + 1).
    { cbn [step_it it]. rewrite add_half_in_range; [rewrite M2; lia|].
      change (2 ^ 24) with 16777216. change (2 ^ 23) with 8388608 in Hm. lia. }
    match goal with |- context [pbicgstab_loop fuel wc norm_0 (step_it l2) ?hh s2] =>
      destruct (IH fuel (step_it l2) hh s2 Hp2 Hm2 Hit2 ltac:(lia) ltac:(lia))
        as (s' & l' & t & E & F & C & Hexit)
    end.
    rewrite E. cbn [result final emitted].
    eexists s', l', _. split; [reflexivity|].
    split; [exact (frame_compose _ _ _ F12 F)|].
    split; [rewrite !spmv_calls_app, C1, C2; lia|].
    rewrite M2, T2 in Hexit.
    replace (sN s2) with (sN s) in Hexit by (symmetry; apply F12).
    destruct Hexit as [Ht|(Hc & Hs & Hl)]; [left; exact Ht|].
    right. split; [exact Hc|]. split; [rewrite !spmv_calls_app, C1, C2, Hs; lia|].
    right. destruct Hl as [->|Hl]; [exact B2 | exact Hl].
Qed.

Lemma setup_has_no_spmv : spmv_calls setup_trace = 0%nat.
Proof. reflexivity. Qed.

(** The whole of [gpu_pbicgstab] with the locals the loop returns. *)
Lemma gpu_pbicgstab_in_range (fuel : nat) (wc : WellContributions W) h (s : solver) pr q :
  prec s = Some pr -> queue s = Some q -> err s = CL_SUCCESS ->
  0 <= maxit s < 2 ^ 23 -> (Z.to_nat (maxit s) < fuel)%nat ->
  let norm_0 := norm (firstn (Z.to_nat (sN s)) (dmem s d_b)) (sN s) in
  let r := gpu_pbicgstab (CL := no_faults CL0) fuel wc h s in
  exists l',
    result r = Ret (report (maxit s) norm_0 l') /\
    (spmv_calls (emitted r) <= 2 * Z.to_nat (maxit s))%nat /\
    ((left_by_test (tolerance s) norm_0 (maxit s) l' /\
      exists v, cur_norm l' = norm v (sN s)) \/
     (left_by_count (maxit s) l' /\
      spmv_calls (emitted r) = (2 * Z.to_nat (maxit s))%nat /\
      (1 <= maxit s -> rltb (cur_norm l') (rmul (tolerance s) norm_0) = false))).
Proof.
  intros Hp Hq He Hm Hf. cbv zeta.
  destruct (gpu_pbicgstab_setup_run CL0 h s Hq He) as (s1 & E & F & _).
  destruct (frame_maxit _ _ F) as (M1 & T1 & P1).
  set (norm_0 := norm (firstn (Z.to_nat (sN s)) (dmem s d_b)) (sN s)) in *.
  set (l0 := {| it := 1; rho := r1; alpha := r1; omega := r1; cur_norm := norm_0 |}).
  destruct (loop_in_range pr wc norm_0 (Z.to_nat (maxit s)) fuel l0
              (h ++ setup_trace)%list s1)
    as (s' & l' & t & El & Fl & C & Hexit);
    try (rewrite ?M1; cbn [it l0]; first [congruence | lia]).
  destruct (frame_maxit _ _ Fl) as (M2 & _).
  unfold gpu_pbicgstab.
  erewrite bind_Ret by exact E. cbn [result final emitted].
  fold l0. erewrite bind_Ret by exact El. cbn [result final emitted].
  rewrite bind_gets. cbn [ret result final emitted].
  rewrite M2, M1. exists l'. split; [reflexivity|].
  rewrite app_nil_r, spmv_calls_app, setup_has_no_spmv. cbn [Nat.add].
  rewrite M1, T1 in Hexit. replace (sN s1) with (sN s) in Hexit by (symmetry; apply F).
  split; [exact C|].
  destruct Hexit as [Ht|(Hc & Hs & Hl)]; [left; exact Ht|].
  right. split; [exact Hc|]. split; [exact Hs|].
  intros H1. destruct Hl as [->|Hl]; [|exact Hl].
  unfold left_by_count in Hc. cbn [it l0] in Hc. lia.
Qed.

(** X1. On an installation that raises no error, with the
    preconditioner and the queue in place and 0 <= maxit < 2^23,
    [gpu_pbicgstab] returns as soon as the fuel exceeds [maxit]: the
    loop makes at most [maxit] passes. When the result says converged,
    the last norm the loop computed was below [tolerance * norm_0] and
    [iterations] is the half step of that test, between 0.5 and
    [maxit]; when it says not converged, [iterations] is [maxit] and,
    if a pass was made at all, the last norm was not below the bound.
    [reduction] is the last norm over [norm_0]. *)
Theorem converged_flag_in_range
    (fuel : nat) (wc : WellContributions W) (h : list event) (s : solver)
    (pr : P) (q : Device) :
  prec s = Some pr -> queue s = Some q -> err s = CL_SUCCESS ->
  0 <= maxit s < 2 ^ 23 -> (Z.to_nat (maxit s) < fuel)%nat ->
  let norm_0 := norm (firstn (Z.to_nat (sN s)) (dmem s d_b)) (sN s) in
  let r := gpu_pbicgstab (CL := no_faults CL0) fuel wc h s in
  exists res last_norm,
    result r = Ret res /\
    reduction res = rdiv last_norm norm_0 /\
    (spmv_calls (emitted r) <= 2 * Z.to_nat (maxit s))%nat /\
    if converged res then
      rltb last_norm (rmul (tolerance s) norm_0) = true /\
      1 <= iterations res <= 2 * maxit s
    else
      iterations res = 2 * maxit s /\
      (1 <= maxit s -> rltb last_norm (rmul (tolerance s) norm_0) = false).
Proof.
  intros Hp Hq He Hm Hf. cbv zeta.
  destruct (gpu_pbicgstab_in_range fuel wc h s pr q Hp Hq He Hm Hf)
    as (l' & Er & C & Hexit).
  cbv zeta in Er, C, Hexit.
  eexists _, (cur_norm l'). split; [exact Er|]. split; [reflexivity|].
  split; [exact C|].
  assert (Hf24 : float_of_int (maxit s) = maxit s).
  { apply float_of_int_small. change (2 ^ 24) with 16777216.
    change (2 ^ 23) with 8388608 in Hm. lia. }
  unfold report. cbn [converged iterations]. rewrite Hf24.
  destruct Hexit as [[[Hb Hi] _]|(Hc & _ & Hl)].
  - replace (it l' =? 2 * maxit s + 1) with false by (symmetry; apply Z.eqb_neq; lia).
    cbn [negb]. split; [exact Hb|]. rewrite Z.min_l by lia. exact Hi.
  - unfold left_by_count in Hc. rewrite Hc, Z.eqb_refl. cbn [negb].
    split; [apply Z.min_r; lia | exact Hl].
Qed.

(** X2. The same when the test can never pass, as with a zero
    right-hand side, where [norm_0] is 0 and no norm is below
    [tolerance * 0]: the loop makes all [maxit] passes, which is
    [2 * maxit] sparse products, and the result says not converged
    with [iterations = maxit]. *)
Theorem test_never_passes_in_range
    (fuel : nat) (wc : WellContributions W) (h : list event) (s : solver)
    (pr : P) (q : Device) :
  prec s = Some pr -> queue s = Some q -> err s = CL_SUCCESS ->
  0 <= maxit s < 2 ^ 23 -> (Z.to_nat (maxit s) < fuel)%nat ->
  let norm_0 := norm (firstn (Z.to_nat (sN s)) (dmem s d_b)) (sN s) in
  let r := gpu_pbicgstab (CL := no_faults CL0) fuel wc h s in
  (forall v, rltb (norm v (sN s)) (rmul (tolerance s) norm_0) = false) ->
  exists res,
    result r = Ret res /\
    converged res = false /\ iterations res = 2 * maxit s /\
    spmv_calls (emitted r) = (2 * Z.to_nat (maxit s))%nat.
Proof.
  intros Hp Hq He Hm Hf. cbv zeta. intros Hnever.
  destruct (gpu_pbicgstab_in_range fuel wc h s pr q Hp Hq He Hm Hf)
    as (l' & Er & C & Hexit).
  cbv zeta in Er, C, Hexit.
  eexists. split; [exact Er|].
  assert (Hf24 : float_of_int (maxit s) = maxit s).
  { apply float_of_int_small. change (2 ^ 24) with 16777216.
    change (2 ^ 23) with 8388608 in Hm. lia. }
  unfold report. cbn [converged iterations]. rewrite Hf24.
  destruct Hexit as [[[Hb _] [v Hv]]|(Hc & Hs & _)].
  - rewrite Hv, Hnever in Hb. discriminate.
  - unfold left_by_count in Hc. rewrite Hc, Z.eqb_refl. cbn [negb].
    split; [reflexivity|]. split; [apply Z.min_r; lia | exact Hs].
Qed.

Set Implicit Arguments.

End LoopInRange.

(** ** Runs that return, and runs that raise *)

Section Faults.
Context {R P W : Type} {SR : Scalar R} {LA : Linalg R}
        {PR : Preconditioner R P} {WM : WellModel R W} {CL : OpenCL}.

Local Abbreviation solver := (Solver R P).

Unset Implicit Arguments.

(** *** A run that does not throw is the run of an installation
    without errors

    [m0] is [m] on the installation [no_faults CL]: when [m] returns or
    stops at a null pointer, no call has raised, and [m0] makes the same
    calls and leaves the same state and result. *)
Definition faultless {A} (m m0 : M solver A) : Prop :=
  forall h s,
    match result (m h s) with Throw _ => False | _ => True end ->
    m0 h s = m h s.


Lemma faultless_stops {A} (m m0 : M solver A) h s w :
  faultless m m0 -> result (m h s) = Stuck w -> m0 h s = m h s.
Proof. intros Hm H. apply Hm. rewrite H. exact I. Qed.

Lemma faultless_same {A} (m : M solver A) : faultless m m.
Proof. intros h s _. reflexivity. Qed.

Lemma faultless_issue (e : event) :
  faultless (issue (CL := CL) e) (issue (CL := no_faults CL) e).
Proof.
  intros h s. unfold issue. cbn.
  destruct (cl_fault h e); [contradiction | reflexivity].
Qed.

Lemma faultless_bind {A B} (m m0 : M solver A) (k k0 : A -> M solver B) :
  faultless m m0 -> (forall a, faultless (k a) (k0 a)) ->
  faultless (bind m k) (bind m0 k0).
Proof.
  intros Hm Hk h s. unfold bind. specialize (Hm h s).
  destruct (result (m h s)) as [a|x|w] eqn:Er; cbn; intros H.
  - rewrite (Hm I), Er. rewrite (Hk a _ _ H). reflexivity.
  - contradiction.
  - rewrite (Hm I), Er. reflexivity.
Qed.

Lemma faultless_try {A} (m m0 : M solver A) (prefix : string) :
  faultless m m0 ->
  faultless (try_catch m (rethrow (CL := CL) prefix))
            (try_catch m0 (rethrow (CL := no_faults CL) prefix)).
Proof.
  intros Hm h s. unfold try_catch. specialize (Hm h s).
  destruct (result (m h s)) as [a|x|w] eqn:Er; cbn.
  - intros _. rewrite (Hm I), Er. reflexivity.
  - destruct x; cbn; contradiction.
  - intros _. rewrite (Hm I), Er. reflexivity.
Qed.

Lemma faultless_for_each {A} (l : list A) (body body0 : A -> M solver unit) :
  (forall a, faultless (body a) (body0 a)) ->
  faultless (for_each l body) (for_each l body0).
Proof.
  intros Hb. induction l as [|a l IH]; cbn [for_each].
  - apply faultless_same.
  - apply faultless_bind; [apply Hb | intros _; exact IH].
Qed.

Lemma faultless_when c (m m0 : M solver unit) :
  faultless m m0 -> faultless (when c m) (when c m0).
Proof. intros Hm. destruct c; [exact Hm | apply faultless_same]. Qed.

Set Implicit Arguments.

End Faults.

Ltac faultless_step :=
  first
    [ match goal with |- faultless ?m ?m0 => constr_eq m m0; apply faultless_same end
    | apply faultless_issue
    | apply faultless_bind; [ | intro ]
    | apply faultless_try
    | apply faultless_for_each; intro
    | apply faultless_when
    | match goal with |- faultless (if ?c then _ else _) _ => destruct c end
    | match goal with
      | |- faultless (match ?c with Some _ => _ | None => _ end) _ => destruct c
      end ].

Section FaultlessFunctions.
Context {R P W : Type} {SR : Scalar R} {LA : Linalg R}
        {PR : Preconditioner R P} {WM : WellModel R W} {CL : OpenCL}.

Local Abbreviation solver := (Solver R P).

Unset Implicit Arguments.

Lemma faultless_initialize N_ nnz_ dim vals rows cols :
  faultless (initialize (P := P) (CL := CL) N_ nnz_ dim vals rows cols)
            (initialize (CL := no_faults CL) N_ nnz_ dim vals rows cols).
Proof. unfold initialize, new_Buffer. repeat faultless_step. Qed.

Set Implicit Arguments.

End FaultlessFunctions.

(** ** How the member functions end *)

Section Associativity.
Context {S A B C : Type}.

Lemma bind_assoc (m : M S A) (f : A -> M S B) (k : B -> M S C) h s :
  bind (bind m f) k h s = bind m (fun a => bind (f a) k) h s.
Proof.
  unfold bind. destruct (m h s) as [s1 t1 [a|x|w]]; cbn; try reflexivity.
  destruct (f a (h ++ t1)%list s1) as [s2 t2 [b|x|w]]; cbn; try reflexivity;
    try (rewrite app_assoc; reflexivity).
  rewrite <- !app_assoc. reflexivity.
Qed.

End Associativity.

Section Raising.
Context {R P W : Type} {SR : Scalar R} {LA : Linalg R}
        {PR : Preconditioner R P} {WM : WellModel R W} {CL : OpenCL}.

Local Abbreviation solver := (Solver R P).

Unset Implicit Arguments.

(** How a run made after the calls [h] ends. If a call raised
    [cl::Error], the run throws and [X] relates the first error raised
    to the exception thrown. If none did, the run returns and [V] holds
    of the value returned and of the object as the run leaves it, or it
    stops at a null pointer or out of fuel, or it throws a
    [std::logic_error] whose message is in [E]. *)
Definition ends {A} (V : A -> solver -> Prop) (X : cl_Error -> exn -> Prop)
    (E : string -> Prop) (h : list event) (r : run solver A) : Prop :=
  match result r, first_fault h (emitted r) with
  | Ret a, None => V a (final r)
  | Throw x, Some e => X e x
  | Throw (logic_error msg), None => E msg
  | Throw (cl_error _), None => False
  | _, Some _ => False
  | Stuck _, None => True
  end.

Definition anyhow {A} : A -> solver -> Prop := fun _ _ => True.

Definition raising {A} (X : cl_Error -> exn -> Prop) (E : string -> Prop)
    (m : M solver A) : Prop :=
  forall h s, ends anyhow X E h (m h s).

(** The error as the bindings raise it, and as a handler of the file
    rethrows it. *)
Definition raw (e : cl_Error) (x : exn) : Prop := x = cl_error e.

Definition wrapped (prefix : string) (e : cl_Error) (x : exn) : Prop :=
  x = logic_error (OpenCL_Error_message prefix e).

Definition no_message (msg : string) : Prop := False.

Section RaisingRules.
Context {A : Type} (X : cl_Error -> exn -> Prop) (E : string -> Prop).

Lemma ends_bind {B} (V' : B -> solver -> Prop) (V : A -> solver -> Prop)
    (m : M solver B) (k : B -> M solver A) h s :
  ends V' X E h (m h s) ->
  (forall b, result (m h s) = Ret b -> V' b (final (m h s)) ->
     ends V X E (h ++ emitted (m h s)) (k b (h ++ emitted (m h s))%list (final (m h s)))) ->
  ends V X E h (bind m k h s).
Proof.
  unfold ends, bind. intros Hm Hk.
  destruct (result (m h s)) as [b|x|w]; cbn.
  - destruct (first_fault h (emitted (m h s))) eqn:Ef; [contradiction|].
    rewrite first_fault_app, Ef. apply Hk; [reflexivity | exact Hm].
  - exact Hm.
  - exact Hm.
Qed.

Lemma ends_issue_bind (V : A -> solver -> Prop) e (k : unit -> M solver A) h s :
  raises e = true -> (forall error, X error (cl_error error)) ->
  (cl_fault h e = None -> ends V X E (h ++ [e]) (k tt (h ++ [e])%list s)) ->
  ends V X E h (bind (issue e) k h s).
Proof.
  intros He Hx Hk. rewrite bind_issue.
  destruct (cl_fault h e) as [error|] eqn:Ef.
  - unfold ends. cbn. rewrite He, Ef. apply Hx.
  - specialize (Hk eq_refl). unfold ends in *. cbn. rewrite He, Ef. exact Hk.
Qed.

(** A call on the queue followed by its effect on the device memory. *)
Lemma ends_enqueue_bind (V : A -> solver -> Prop) e (f : solver -> solver)
    (k : unit -> M solver A) h s :
  raises e = true -> (forall error, X error (cl_error error)) ->
  (forall q, queue s = Some q -> cl_fault h e = None ->
     ends V X E (h ++ [e]) (k tt (h ++ [e])%list (f s))) ->
  ends V X E h (bind (bind (enqueue e) (fun _ => modify f)) k h s).
Proof.
  intros He Hx Hk. unfold enqueue. rewrite !bind_assoc, bind_gets.
  destruct (queue s) as [q|] eqn:Hq.
  - apply ends_issue_bind; [exact He | exact Hx|].
    intros Hf. rewrite bind_modify. apply (Hk q); [reflexivity | exact Hf].
  - exact I.
Qed.

Lemma ends_ret (V : A -> solver -> Prop) a h s : V a s -> ends V X E h (ret a h s).
Proof. intros Hv. exact Hv. Qed.

Lemma ends_stuck (V : A -> solver -> Prop) w h s : ends V X E h (@stuck solver A w h s).
Proof. exact I. Qed.

Lemma ends_throw (V : A -> solver -> Prop) msg h s :
  E msg -> ends V X E h (@throw solver A (logic_error msg) h s).
Proof. intros He. exact He. Qed.

Lemma raising_ret (a : A) : raising X E (ret a).
Proof. intros h s. exact I. Qed.

Lemma raising_gets (f : solver -> A) : raising X E (gets f).
Proof. intros h s. exact I. Qed.

Lemma raising_stuck w : raising X E (@stuck solver A w).
Proof. intros h s. exact I. Qed.

Lemma raising_bind {B} (m : M solver B) (k : B -> M solver A) :
  raising X E m -> (forall b, raising X E (k b)) -> raising X E (bind m k).
Proof.
  intros Hm Hk h s.
  apply ends_bind with (V' := anyhow); [apply Hm | intros b _ _; apply Hk].
Qed.

End RaisingRules.

Section UnitRules.
Context (X : cl_Error -> exn -> Prop) (E : string -> Prop).

Lemma raising_modify (f : solver -> solver) : raising X E (modify f).
Proof. intros h s. exact I. Qed.

Lemma raising_issue e :
  raises e = true -> (forall error, X error (cl_error error)) ->
  raising X E (issue e).
Proof.
  intros He Hx h s. unfold ends, issue. cbn. rewrite He.
  destruct (cl_fault h e); [apply Hx | exact I].
Qed.

Lemma raising_when c (m : M solver unit) : raising X E m -> raising X E (when c m).
Proof. intros Hm. destruct c; [exact Hm | apply raising_ret]. Qed.

Lemma raising_for_each {B} (l : list B) (body : B -> M solver unit) :
  (forall b, raising X E (body b)) -> raising X E (for_each l body).
Proof.
  intros Hb. induction l as [|b l IH]; cbn [for_each].
  - apply raising_ret.
  - apply raising_bind; [apply Hb | intros _; exact IH].
Qed.

End UnitRules.

(** The handlers of a try block turn the raw error into the wrapped one. *)
Lemma ends_try {A} (V : A -> solver -> Prop) (E : string -> Prop) (m : M solver A)
    prefix h s :
  ends V raw E h (m h s) ->
  ends V (wrapped prefix) E h (try_catch m (rethrow prefix) h s).
Proof.
  unfold ends, try_catch, raw, wrapped.
  destruct (result (m h s)) as [a|[msg|e]|w] eqn:Er; cbn.
  - rewrite Er. intros H; exact H.
  - rewrite app_nil_r. destruct (first_fault h (emitted (m h s))); [discriminate|].
    intros H; exact H.
  - rewrite app_nil_r. destruct (first_fault h (emitted (m h s))); [|contradiction].
    intros H. inversion H. reflexivity.
  - rewrite Er. intros H; exact H.
Qed.

Lemma raising_try {A} (E : string -> Prop) (m : M solver A) prefix :
  raising raw E m -> raising (wrapped prefix) E (try_catch m (rethrow prefix)).
Proof. intros Hm h s. apply ends_try. apply Hm. Qed.

Lemma ends_weaken {A} (V V' : A -> solver -> Prop) (X X' : cl_Error -> exn -> Prop)
    (E E' : string -> Prop) h (r : run solver A) :
  (forall a, V a (final r) -> V' a (final r)) ->
  (forall e x, X e x -> X' e x) -> (forall msg, E msg -> E' msg) ->
  ends V X E h r -> ends V' X' E' h r.
Proof.
  unfold ends. intros Hv Hx He.
  destruct (result r) as [a|[msg|e]|w]; destruct (first_fault h (emitted r)); auto.
Qed.

Set Implicit Arguments.

End Raising.

Ltac raising_step :=
  first
    [ apply raising_ret
    | apply raising_gets
    | apply raising_modify
    | apply raising_stuck
    | apply raising_issue; [ reflexivity | intro; reflexivity ]
    | apply raising_bind; [ | intro ]
    | apply raising_for_each; intro
    | apply raising_when
    | match goal with |- raising _ _ (if ?c then _ else _) => destruct c end
    | match goal with
      | |- raising _ _ (match ?c with Some _ => _ | None => _ end) => destruct c
      end ].

Section InitializeProofs.
Context {R P W : Type} {SR : Scalar R} {LA : Linalg R}
        {PR : Preconditioner R P} {WM : WellModel R W} {CL : OpenCL}.

Local Abbreviation solver := (Solver R P).

Unset Implicit Arguments.

(** The buffers [initialize] creates, in the order of lines 403-423. *)
Definition buffers_created (reorder : ILUReorder) : list event :=
  map CreateBuffer
      (vector_buffers ++ matrix_buffers ++ (if is_NONE reorder then [] else [d_toOrder])).

(** [initialize] on an installation that raises no error. *)
Lemma initialize_run N_ nnz_ dim vals rows cols h (s : solver) :
  let r := initialize (CL := no_faults CL) N_ nnz_ dim vals rows cols h s in
  match prec s, context s with
  | Some _, Some _ =>
      result r = Ret tt /\
      emitted r = buffers_created (opencl_ilu_reorder s) /\
      sN (final r) = N_ /\ nnz (final r) = nnz_ /\
      nnzb (final r) = Z.quot (Z.quot nnz_ block_size) block_size /\
      Nb (final r) = Z.quot (N_ + dim - 1) dim /\
      mat (final r)
      = Some {| bm_Nb := Z.quot (N_ + dim - 1) dim;
                bm_nnzbs := Z.quot (Z.quot nnz_ block_size) block_size;
                bm_block_size := block_size; nnzValues := vals;
                colIndices := cols; rowPointers := rows |} /\
      rb (final r) = (if is_NONE (opencl_ilu_reorder s) then rb s
                      else repeat r0 (Z.to_nat N_)) /\
      initialized (final r) = true /\
      analysis_done (final r) = analysis_done s /\
      dmem (final r) = dmem s /\ imem (final r) = imem s
  | _, _ => exists w, result r = Stuck w
  end.
Proof.
  cbv zeta.
  destruct (prec s) as [pr|] eqn:Hp; destruct (context s) as [c|] eqn:Hc;
    destruct (opencl_ilu_reorder s) eqn:Ho;
    destruct s; cbn in Hp, Hc, Ho; subst; try (eexists; reflexivity).
  all: repeat split; cbv -[Z.quot Z.add Z.sub Z.to_nat repeat]; reflexivity.
Qed.


(** *** When a buffer cannot be created *)





Lemma initialize_raising N_ nnz_ dim vals rows cols :
  raising (wrapped "OpenCL Error: ") no_message
          (initialize (P := P) (CL := CL) N_ nnz_ dim vals rows cols).
Proof.
  rewrite initialize_unfold.
  do 4 (apply raising_bind; [apply raising_modify | intros _]).
  apply raising_bind; [|intros _; apply raising_modify].
  unfold initialize_try. apply raising_try.
  unfold new_Buffer. repeat raising_step.
Qed.

Lemma initialize_stops_on_null N_ nnz_ dim vals rows cols h (s : solver) w :
  result (initialize N_ nnz_ dim vals rows cols h s) = Stuck w ->
  prec s = None \/ context s = None.
Proof.
  intros Er.
  pose proof (faultless_stops _ _ h s w
                (faultless_initialize N_ nnz_ dim vals rows cols) Er) as E0.
  pose proof (initialize_run N_ nnz_ dim vals rows cols h s) as Hn.
  cbv zeta in Hn.
  destruct (prec s); [|left; reflexivity].
  destruct (context s); [|right; reflexivity].
  destruct Hn as [Hn _]. rewrite E0, Er in Hn. discriminate.
Qed.





Set Implicit Arguments.

End InitializeProofs.

(** ** The errors of the solver *)

Section SolverErrors.
Context {R P W : Type} {SR : Scalar R} {LA : Linalg R}
        {PR : Preconditioner R P} {WM : WellModel R W} {CL : OpenCL}.

Local Abbreviation solver := (Solver R P).

Unset Implicit Arguments.

Lemma first_half_step_raising (wc : WellContributions W) l :
  raising raw no_message (first_half_step (P := P) wc l).
Proof.
  unfold first_half_step, OpenclKernels_dot, OpenclKernels_custom, prec_apply_to,
    OpenclKernels_spmv, apply_wellContributions, OpenclKernels_axpy, OpenclKernels_norm.
  repeat raising_step.
Qed.

Lemma second_half_step_raising (wc : WellContributions W) l :
  raising raw no_message (second_half_step (P := P) wc l).
Proof.
  unfold second_half_step, OpenclKernels_dot, prec_apply_to,
    OpenclKernels_spmv, apply_wellContributions, OpenclKernels_axpy, OpenclKernels_norm.
  repeat raising_step.
Qed.

Lemma pbicgstab_loop_raising fuel (wc : WellContributions W) norm_0 :
  forall l, raising raw no_message (pbicgstab_loop (P := P) fuel wc norm_0 l).
Proof.
  induction fuel as [|fuel IH]; intros l; cbn [pbicgstab_loop].
  - apply raising_stuck.
  - repeat first [ apply first_half_step_raising | apply second_half_step_raising
                 | apply IH | raising_step ].
Qed.

(** The text of line 268. *)
Definition enqueue_error : string :=
  "openclSolverBackend OpenCL enqueue[Fill|Copy]Buffer error".

(** The check of line 266 reads [err] as the caller left it: none of
    the five calls before it assigns it. *)
Definition stale_error (s : solver) (msg : string) : Prop :=
  msg = enqueue_error /\ err s <> CL_SUCCESS.

Lemma gpu_pbicgstab_setup_ends h (s : solver) :
  ends (fun _ _ => err s = CL_SUCCESS) raw (stale_error s) h (gpu_pbicgstab_setup h s).
Proof.
  unfold gpu_pbicgstab_setup, enqueueFillBuffer, enqueueCopyBuffer.
  do 5 (apply ends_enqueue_bind; [reflexivity | intro; reflexivity | intros ? _ _]).
  apply ends_issue_bind; [reflexivity | intro; reflexivity | intros _].
  rewrite bind_gets. cbn [err write_d set_dmem].
  destruct (err s =? CL_SUCCESS) eqn:He; cbn [negb].
  - apply Z.eqb_eq in He.
    apply ends_weaken with (V := anyhow) (X := raw) (E := no_message).
    + intros _ _. exact He.
    + intros e x Hx; exact Hx.
    + intros msg [].
    + assert (Hn : raising raw no_message (OpenclKernels_norm (P := P) d_r))
        by (unfold OpenclKernels_norm; repeat raising_step).
      apply Hn.
  - apply ends_throw. split; [reflexivity|]. apply Z.eqb_neq. exact He.
Qed.

Lemma gpu_pbicgstab_ends fuel (wc : WellContributions W) h (s : solver) :
  ends (fun _ _ => err s = CL_SUCCESS) raw (stale_error s) h (gpu_pbicgstab fuel wc h s).
Proof.
  unfold gpu_pbicgstab.
  apply ends_bind with (V' := fun (_ : R) (_ : solver) => err s = CL_SUCCESS);
    [apply gpu_pbicgstab_setup_ends|].
  intros norm_0 _ He.
  apply ends_weaken with (V := anyhow) (X := raw) (E := no_message).
  - intros _ _. exact He.
  - intros e x Hx; exact Hx.
  - intros msg [].
  - apply raising_bind; [apply pbicgstab_loop_raising | intros l].
    repeat raising_step.
Qed.

(** X5. [solve_system(wellContribs, res)], whatever the installation
    and the state of the object. A [cl::Error] raised by a call of the
    solver never gets out: the function throws [std::logic_error] with
    the text of lines 602-603 built from the first error raised. When no
    call raises, the only exception is the [std::logic_error] of line
    268, and it is thrown only if [err] was not [CL_SUCCESS] when the
    function was entered: the calls of lines 256-263 drop their status.
    The function returns only if [err] was [CL_SUCCESS] on entry. *)
Theorem solver_errors_are_wrapped
    (fuel : nat) (wc : WellContributions W) (h : list event) (s : solver) :
  ends (fun _ _ => err s = CL_SUCCESS)
       (wrapped "openclSolverBackend::solve_system error: ")
       (stale_error s)
       h (solve_system_wells fuel wc h s).
Proof.
  unfold solve_system_wells. apply ends_try. apply gpu_pbicgstab_ends.
Qed.

Set Implicit Arguments.

End SolverErrors.

(** ** The transfers *)

Section Transfers.
Context {R P W : Type} {SR : Scalar R} {LA : Linalg R}
        {PR : Preconditioner R P} {WM : WellModel R W} {CL : OpenCL}.

Local Abbreviation solver := (Solver R P).

Unset Implicit Arguments.

(** The members of the host that no transfer writes. *)
Definition same_host (s s' : solver) : Prop :=
  sN s' = sN s /\ Nb s' = Nb s /\ nnz s' = nnz s /\ nnzb s' = nnzb s /\
  initialized s' = initialized s /\ analysis_done s' = analysis_done s /\
  prec s' = prec s /\ mat s' = mat s /\ rmat s' = rmat s /\ rb s' = rb s /\
  toOrder s' = toOrder s /\ fromOrder s' = fromOrder s /\
  context s' = context s /\ queue s' = queue s.

(** The device after the values of the matrix [m], the right-hand side
    and the zero guess have been sent. *)
Definition values_sent (m : BlockedMatrix R) (s s' : solver) : Prop :=
  dmem s' d_Avals = firstn (Z.to_nat (nnz s)) (nnzValues m) /\
  dmem s' d_b = firstn (Z.to_nat (sN s)) (rb s) /\
  dmem s' d_x = repeat r0 (Z.to_nat (sN s)) /\
  forall b, b <> d_Avals -> b <> d_b -> b <> d_x -> dmem s' b = dmem s b.

(** The device after the sparsity pattern of [m] has been sent, and
    [toOrder] when there is a reordering. *)
Definition pattern_sent (m : BlockedMatrix R) (s s' : solver) : Prop :=
  imem s' d_Acols = firstn (Z.to_nat (nnzb s)) (colIndices m) /\
  imem s' d_Arows = firstn (Z.to_nat (Nb s + 1)) (rowPointers m) /\
  (if is_NONE (opencl_ilu_reorder s) then imem s' d_toOrder = imem s d_toOrder
   else imem s' d_toOrder = firstn (Z.to_nat (Nb s)) (toOrder s)) /\
  forall b, b <> d_Acols -> b <> d_Arows -> b <> d_toOrder -> imem s' b = imem s b.

Definition updated_on_gpu (s : solver) (_ : unit) (s' : solver) : Prop :=
  exists m, deref_rmat s = Some m /\
    values_sent m s s' /\ imem s' = imem s /\
    err s' = CL_SUCCESS /\ same_host s s'.

Definition copied_to_gpu (s : solver) (_ : unit) (s' : solver) : Prop :=
  exists m, deref_rmat s = Some m /\
    values_sent m s s' /\ pattern_sent m s s' /\
    err s' = CL_SUCCESS /\ same_host s s'.

Ltac other_buffer :=
  match goal with
  | |- forall b : buf, _ =>
      let b := fresh "b" in
      intros b; destruct b; intros; try congruence; reflexivity
  end.

Lemma update_system_on_gpu_ends (h : list event) (s : solver) :
  ends (updated_on_gpu s) raw no_message h (update_system_on_gpu h s).
Proof.
  unfold update_system_on_gpu. rewrite bind_gets.
  destruct (deref_rmat s) as [m|] eqn:Hm; [|apply ends_stuck].
  rewrite !bind_gets.
  unfold enqueueWriteBuffer, enqueueFillBuffer.
  apply ends_enqueue_bind; [reflexivity | intro; reflexivity | intros ? _ _].
  rewrite bind_modify.
  do 2 (apply ends_enqueue_bind; [reflexivity | intro; reflexivity | intros ? _ _]).
  apply ends_issue_bind; [reflexivity | intro; reflexivity | intros _].
  unfold check_err. rewrite bind_gets. cbn [err write_d set_dmem set_err].
  change (negb (CL_SUCCESS =? CL_SUCCESS)) with false. cbv iota.
  apply ends_ret. exists m. split; [exact Hm|].
  split; [|split; [|split]].
  - repeat split; try other_buffer.
  - reflexivity.
  - reflexivity.
  - repeat split.
Qed.

Lemma copy_system_to_gpu_ends (h : list event) (s : solver) :
  ends (copied_to_gpu s) raw no_message h (copy_system_to_gpu h s).
Proof.
  unfold copy_system_to_gpu. rewrite bind_gets.
  destruct (deref_rmat s) as [m|] eqn:Hm; [|apply ends_stuck].
  rewrite !bind_gets.
  unfold enqueueWriteBuffer, enqueueWriteBuffer_int, enqueueFillBuffer.
  apply ends_enqueue_bind; [reflexivity | intro; reflexivity | intros ? _ _].
  rewrite bind_modify.
  do 4 (apply ends_enqueue_bind; [reflexivity | intro; reflexivity | intros ? _ _]).
  rewrite bind_gets.
  cbn [opencl_ilu_reorder write_d write_i set_dmem set_imem set_err].
  destruct (is_NONE (opencl_ilu_reorder s)) eqn:Ho; cbn [negb when].
  - rewrite bind_ret.
    apply ends_issue_bind; [reflexivity | intro; reflexivity | intros _].
    unfold check_err. rewrite bind_gets. cbn [err write_d write_i set_dmem set_imem set_err].
    change (negb (CL_SUCCESS =? CL_SUCCESS)) with false. cbv iota.
    apply ends_ret. exists m. split; [exact Hm|].
    split; [|split; [|split]].
    + repeat split; try other_buffer.
    + unfold pattern_sent. rewrite Ho. repeat split; try other_buffer.
    + reflexivity.
    + repeat split.
  - rewrite bind_assoc, bind_gets.
    apply ends_enqueue_bind; [reflexivity | intro; reflexivity | intros ? _ _].
    apply ends_issue_bind; [reflexivity | intro; reflexivity | intros _].
    unfold check_err. rewrite bind_gets. cbn [err write_d write_i set_dmem set_imem set_err].
    change (negb (CL_SUCCESS =? CL_SUCCESS)) with false. cbv iota.
    apply ends_ret. exists m. split; [exact Hm|].
    split; [|split; [|split]].
    + repeat split; try other_buffer.
    + unfold pattern_sent. rewrite Ho. repeat split; try other_buffer.
    + reflexivity.
    + repeat split.
Qed.

(** X6. [update_system_on_gpu], whatever the installation and the
    state of the object. When it returns it has sent nnz values of the
    matrix behind [rmat] to [d_Avals] and N entries of [rb] to [d_b],
    and filled N entries of [d_x] with zeros; no other buffer has
    changed, in particular not [d_Acols], [d_Arows] and [d_toOrder], and
    no member of the host has; [err] is [CL_SUCCESS]. There is no try
    block: a [cl::Error] raised by a transfer leaves the function as it
    is. The check of line 517 never throws, a transfer that returns has
    returned [CL_SUCCESS]. *)
Theorem update_system_on_gpu_sends_values_only (h : list event) (s : solver) :
  ends (updated_on_gpu s) raw no_message h (update_system_on_gpu h s).
Proof. apply update_system_on_gpu_ends. Qed.

(** X7. [copy_system_to_gpu], whatever the installation and the state
    of the object. When it returns it has sent what
    [update_system_on_gpu] sends and the sparsity pattern as well:
    nnzb column indices to [d_Acols] and Nb + 1 row pointers to
    [d_Arows], and Nb entries of [toOrder] to [d_toOrder] exactly when
    there is a reordering; no other buffer and no member of the host has
    changed, and [err] is [CL_SUCCESS]. A [cl::Error] raised by a
    transfer leaves the function as it is, and the check of line 483
    never throws. *)
Theorem copy_system_to_gpu_sends_pattern_too (h : list event) (s : solver) :
  ends (copied_to_gpu s) raw no_message h (copy_system_to_gpu h s).
Proof. apply copy_system_to_gpu_ends. Qed.

Set Implicit Arguments.

End Transfers.

(** ** The errors of solve_system *)

Section SolveSystemErrors.
Context {R P W : Type} {SR : Scalar R} {LA : Linalg R}
        {PR : Preconditioner R P} {WM : WellModel R W} {CL : OpenCL}.

Local Abbreviation solver := (Solver R P).

Unset Implicit Arguments.

(** The three ways a [cl::Error] leaves [solve_system]: as it is, from
    the calls outside a try block, or rethrown by the handler of
    [initialize] or by that of [solve_system(wellContribs, res)]. *)
Definition escapes (e : cl_Error) (x : exn) : Prop :=
  raw e x \/ wrapped "OpenCL Error: " e x \/
  wrapped "openclSolverBackend::solve_system error: " e x.

Lemma analyze_matrix_raising : raising raw no_message (analyze_matrix (P := P)).
Proof. unfold analyze_matrix. repeat raising_step. Qed.

Lemma create_preconditioner_raising :
  raising raw no_message (create_preconditioner (P := P)).
Proof. unfold create_preconditioner. repeat raising_step. Qed.

Lemma update_system_raising vals b (wc : WellContributions W) :
  raising raw no_message (update_system (P := P) vals b wc).
Proof. unfold update_system. repeat raising_step. Qed.

Lemma raw_escapes e x : raw e x -> escapes e x.
Proof. intros H. left. exact H. Qed.

(** When [prepare_system] lets the call go on, [err] is [CL_SUCCESS]. *)
Definition ready_to_solve (early : option SolverStatus * WellContributions W)
    (s' : solver) : Prop :=
  fst early = None -> err s' = CL_SUCCESS.

Ltac escapes_bind lemma :=
  apply ends_bind with (V' := anyhow);
  [ apply ends_weaken with (V := anyhow) (X := raw) (E := no_message);
    [ intros ? Ha; exact Ha | exact raw_escapes | intros ? Hm; exact Hm | apply lemma ]
  | intros ? _ _ ].

Ltac upload_ends lemma :=
  apply ends_bind with (V' := fun (_ : unit) (s' : Solver _ _) => err s' = CL_SUCCESS);
  [ eapply ends_weaken with (X := raw) (E := no_message);
    [ | | | apply lemma ];
    [ intros ? (? & _ & _ & _ & He & _); exact He
    | exact raw_escapes | intros ? Hm; exact Hm ]
  | intros [] _ He; apply ends_ret; intros _; exact He ].

Ltac build_and_upload lemma :=
  escapes_bind update_system_raising;
  escapes_bind create_preconditioner_raising;
  match goal with |- context [negb ?ok] => destruct ok end; cbn [negb];
  [ upload_ends lemma | apply ends_ret; intros H; discriminate H ].

Lemma prepare_system_ends N_ nnz_ dim vals rows cols b (wc : WellContributions W)
    h (s : solver) :
  ends ready_to_solve escapes no_message h
       (prepare_system N_ nnz_ dim vals rows cols b wc h s).
Proof.
  unfold prepare_system. rewrite bind_gets.
  destruct (initialized s); cbn [negb].
  - build_and_upload update_system_on_gpu_ends.
  - apply ends_bind with (V' := anyhow).
    + apply ends_weaken with (V := anyhow) (X := wrapped "OpenCL Error: ")
                             (E := no_message);
        [ intros ? Ha; exact Ha | intros e x Hx; right; left; exact Hx
        | intros ? Hm; exact Hm | apply initialize_raising ].
    + intros [] _ _. rewrite bind_gets.
      match goal with |- context [negb (analysis_done ?st)] =>
        destruct (analysis_done st) end; cbn [negb].
      * rewrite bind_ret. cbn [negb].
        build_and_upload copy_system_to_gpu_ends.
      * escapes_bind analyze_matrix_raising.
        match goal with |- context [negb ?ok] => destruct ok end; cbn [negb].
        -- build_and_upload copy_system_to_gpu_ends.
        -- apply ends_ret. intros H. discriminate H.
Qed.

Lemma solve_system_ends fuel N_ nnz_ dim vals rows cols b (wc : WellContributions W)
    res h (s : solver) :
  ends anyhow escapes no_message h
       (solve_system fuel N_ nnz_ dim vals rows cols b wc res h s).
Proof.
  unfold solve_system.
  apply ends_bind with (V' := ready_to_solve); [apply prepare_system_ends|].
  intros early _ Hv. unfold ready_to_solve in Hv.
  destruct (fst early) as [status|].
  - apply ends_ret. exact I.
  - specialize (Hv eq_refl).
    apply ends_bind with (V' := anyhow); [|intros ? _ _; apply ends_ret; exact I].
    unfold solve_system_wells.
    eapply ends_weaken with (X := wrapped "openclSolverBackend::solve_system error: ");
      [ | | | apply ends_try; apply gpu_pbicgstab_ends ].
    + intros ? _. exact I.
    + intros e x Hx. right. right. exact Hx.
    + intros msg [_ Hne]. exact (Hne Hv).
Qed.

(** X8. [solve_system(N, nnz, dim, vals, rows, cols, b, wellContribs,
    res)], whatever the installation, the arguments and the state of
    the object, throws only when a call to OpenCL has raised an error:
    none of the three checks of [err] (lines 266, 483 and 517) can
    fail, since [err] is assigned by the first transfer of the upload
    only, and a transfer that returns has returned [CL_SUCCESS]. The
    exception thrown is then the [cl::Error] itself, when the call was
    made outside a try block, or a [std::logic_error] with the text of
    the handler of [initialize] or of [solve_system(wellContribs,
    res)]. *)
Theorem solve_system_throws_only_opencl_errors
    (fuel : nat) (N_ nnz_ dim : Z) (vals : list R) (rows cols : list Z) (b : list R)
    (wc : WellContributions W) (res : BdaResult) :
  raising escapes no_message
          (solve_system (P := P) fuel N_ nnz_ dim vals rows cols b wc res).
Proof. intros h s. apply solve_system_ends. Qed.

Set Implicit Arguments.

End SolveSystemErrors.

(** ** What later calls and the solver leave alone *)

Section Untouched.
Context {R P W : Type} {SR : Scalar R} {LA : Linalg R}
        {PR : Preconditioner R P} {WM : WellModel R W} {CL : OpenCL}.

Local Abbreviation solver := (Solver R P).

Unset Implicit Arguments.

Lemma bind_run_eq {S A B} (m m' : M S A) (k : A -> M S B) h s :
  m h s = m' h s -> bind m k h s = bind m' k h s.
Proof. intros H. unfold bind. rewrite H. reflexivity. Qed.

(** Lines 656-660: what [solve_system] does before the solver on an
    object that is initialized. *)
Lemma prepare_system_initialized N_ nnz_ dim vals rows cols b
    (wc : WellContributions W) h (s : solver) :
  initialized s = true ->
  prepare_system N_ nnz_ dim vals rows cols b wc h s
  = (wc' <- update_system vals b wc ;;
     ok' <- create_preconditioner ;;
     if negb ok' then ret (Some BDA_SOLVER_CREATE_PRECONDITIONER_FAILED, wc')
     else update_system_on_gpu ;; ret (None, wc')) h s.
Proof. intros Hi. unfold prepare_system. rewrite bind_gets, Hi. reflexivity. Qed.

(** The sizes, the flags and the integer buffers of the device, which
    hold the sparsity pattern and the reordering. *)
Definition sizes_and_pattern (s s' : solver) : Prop :=
  sN s' = sN s /\ Nb s' = Nb s /\ nnz s' = nnz s /\ nnzb s' = nnzb s /\
  imem s' = imem s /\ initialized s' = initialized s /\
  analysis_done s' = analysis_done s /\ rmat s' = rmat s.

Ltac untouched :=
  match goal with
  | H : sizes_and_pattern _ _ |- _ =>
      destruct H as (? & ? & ? & ? & ? & ? & ? & ?)
  | H : frame _ _ |- _ =>
      destruct H as (? & ? & ? & ? & ? & ? & ? & ? & ? & ?)
  end;
  repeat split; cbn; assumption.

Ltac unfold_solver :=
  unfold solve_system_wells, gpu_pbicgstab, gpu_pbicgstab_setup,
    enqueueFillBuffer, enqueueCopyBuffer, enqueue, OpenclKernels_norm.

Ltac unfold_half_steps :=
  unfold first_half_step, second_half_step, OpenclKernels_dot, OpenclKernels_custom,
    prec_apply_to, OpenclKernels_spmv, apply_wellContributions, OpenclKernels_axpy,
    OpenclKernels_norm.

Lemma solver_keeps_sizes_and_pattern fuel (wc : WellContributions W) (s0 : solver) :
  keeps (sizes_and_pattern s0) (solve_system_wells (P := P) fuel wc).
Proof.
  unfold_solver.
  repeat first [ apply loop_keeps; intro; unfold_half_steps | keeps_step ];
  untouched.
Qed.

Lemma solver_keeps_frame fuel (wc : WellContributions W) (s0 : solver) :
  keeps (frame s0) (solve_system_wells (P := P) fuel wc).
Proof.
  unfold_solver.
  repeat first [ apply loop_keeps; intro; unfold_half_steps | keeps_step ];
  untouched.
Qed.

Lemma sizes_and_pattern_refl (s : solver) : sizes_and_pattern s s.
Proof. repeat split. Qed.

(** X9. A call of [solve_system] on an object that is initialized,
    whatever the installation and however the call ends. The arguments
    N, nnz, dim, rows and cols are not read: the call does what it does
    for any other values of them. N, Nb, nnz and nnzb stay as the first
    call set them, no integer buffer of the device is written, so that
    [d_Acols], [d_Arows] and [d_toOrder] keep the pattern and the
    reordering of the first call, and [initialized], [analysis_done] and
    the pointer [rmat] are as they were. *)
Theorem later_calls_keep_sizes_and_pattern
    (fuel : nat) (N_ nnz_ dim : Z) (vals : list R) (rows cols : list Z) (b : list R)
    (wc : WellContributions W) (res : BdaResult) (h : list event) (s : solver) :
  initialized s = true ->
  let r := solve_system fuel N_ nnz_ dim vals rows cols b wc res h s in
  (forall N' nnz' dim' rows' cols',
     solve_system fuel N' nnz' dim' vals rows' cols' b wc res h s = r) /\
  sizes_and_pattern s (final r).
Proof.
  intros Hi. cbv zeta. split.
  - intros N' nnz' dim' rows' cols'. unfold solve_system.
    rewrite (bind_run_eq _ _ _ _ _
               (prepare_system_initialized N' nnz' dim' vals rows' cols' b wc h s Hi)).
    rewrite (bind_run_eq _ _ _ _ _
               (prepare_system_initialized N_ nnz_ dim vals rows cols b wc h s Hi)).
    reflexivity.
  - unfold solve_system.
    rewrite (bind_run_eq _ _ _ _ _
               (prepare_system_initialized N_ nnz_ dim vals rows cols b wc h s Hi)).
    match goal with
    | |- sizes_and_pattern s (final (?m h s)) =>
        assert (Hk : keeps (sizes_and_pattern s) m)
    end.
    { apply keeps_bind.
      - unfold update_system, create_preconditioner, update_system_on_gpu,
          enqueueWriteBuffer, enqueueFillBuffer, enqueue, check_err.
        repeat keeps_step; untouched.
      - intros early. destruct (fst early); [apply keeps_ret|].
        apply keeps_bind; [apply solver_keeps_sizes_and_pattern | intro; apply keeps_ret]. }
    exact (Hk h s (sizes_and_pattern_refl s)).
Qed.

(** X10. [solve_system(wellContribs, res)], whatever the installation
    and however it ends, by a return, by an exception or at a null
    pointer: it has written neither the values of the matrix nor the
    right-hand side on the device, no integer buffer, and none of
    [prec], [maxit], [tolerance], N, Nb, [queue] and [err]. The system
    that was uploaded is still there when the solver has run. *)
Theorem solver_leaves_system_untouched
    (fuel : nat) (wc : WellContributions W) (h : list event) (s : solver) :
  frame s (final (solve_system_wells fuel wc h s)).
Proof. exact (solver_keeps_frame fuel wc s h s (frame_refl s)). Qed.

Set Implicit Arguments.

End Untouched.

(** ** The object the constructor leaves *)

Section Constructed.
Context {R P W : Type} {SR : Scalar R} {LA : Linalg R}
        {PR : Preconditioner R P} {WM : WellModel R W} {CL : OpenCL}.

Local Abbreviation solver := (Solver R P).

Unset Implicit Arguments.

Lemma ends_returned {A} (V : A -> solver -> Prop) X E h (r : run solver A) a :
  ends V X E h r -> result r = Ret a -> V a (final r).
Proof.
  unfold ends. intros H Hr. rewrite Hr in H.
  destruct (first_fault h (emitted r)); [contradiction | exact H].
Qed.

Lemma ends_block {A} (V : A -> solver -> Prop) (X : cl_Error -> exn -> Prop)
    (E : string -> Prop) (m : M solver unit) (k : unit -> M solver A) h s :
  calls_only m -> (forall error, X error (cl_error error)) ->
  (forall h', ends V X E h' (k tt h' s)) ->
  ends V X E h (bind m k h s).
Proof.
  intros Hm Hx Hk. destruct (Hm h s) as [Fm Om].
  unfold outcome_ok in Om. unfold bind, ends.
  destruct (result (m h s)) as [[]|[msg|e]|w]; cbn.
  - destruct (first_fault h (emitted (m h s))) eqn:Ef; [contradiction|].
    rewrite first_fault_app, Ef, Fm. apply Hk.
  - destruct (first_fault h (emitted (m h s))); contradiction.
  - destruct (first_fault h (emitted (m h s))); [|contradiction].
    subst. apply Hx.
  - destruct (first_fault h (emitted (m h s))); contradiction.
Qed.

Lemma ends_issue_last (V : unit -> solver -> Prop) (X : cl_Error -> exn -> Prop)
    (E : string -> Prop) e h (s : solver) :
  raises e = true -> (forall error, X error (cl_error error)) ->
  V tt s -> ends V X E h (issue e h s).
Proof.
  intros He Hx Hv. unfold ends, issue. cbn. rewrite He.
  destruct (cl_fault h e); [apply Hx | exact Hv].
Qed.

Definition any_message (msg : string) : Prop := True.

(** The object [select_device] leaves when it returns: [devices] holds
    the chosen device and no other, the context and the queue are those
    of that device. *)
Definition device_selected (s : solver) (_ : unit) (s' : solver) : Prop :=
  exists platform chosen,
    nth_error cl_platforms (N.to_nat (platformID s)) = Some platform /\
    nth_error (platform_devices platform) (N.to_nat (deviceID s)) = Some chosen /\
    s' = set_err CL_SUCCESS
           (set_queue (Some chosen)
              (set_context (Some chosen) (set_devices [chosen] s))).

Lemma select_device_ends h (s : solver) :
  ends (device_selected s) raw any_message h (select_device h s).
Proof.
  unfold select_device.
  apply ends_issue_bind; [reflexivity | intro; reflexivity | intros _].
  destruct (Nat.eqb (List.length cl_platforms) 0) eqn:E0; [apply ends_throw; exact I|].
  rewrite bind_gets.
  apply ends_block; [|intro; reflexivity|].
  { apply calls_only_when, calls_only_for_each. intros i.
    apply calls_only_for_each. intros key. apply calls_only_issue. reflexivity. }
  intros h1. rewrite bind_gets.
  destruct (N.of_nat (List.length cl_platforms) <=? platformID s)%N eqn:E1;
    [apply ends_throw; exact I|].
  do 3 (apply ends_issue_bind; [reflexivity | intro; reflexivity | intros _]).
  destruct (nth_error_in_range _ _ E1) as [platform En]. rewrite En.
  rewrite bind_modify.
  destruct (Nat.eqb (List.length (platform_devices platform)) 0) eqn:E2;
    [apply ends_throw; exact I|].
  apply ends_block; [|intro; reflexivity|].
  { apply calls_only_when, calls_only_for_each. intros i. apply calls_only_seq.
    - apply calls_only_for_each. intros key. apply calls_only_issue. reflexivity.
    - apply calls_only_for_each. intros key. apply calls_only_issue_c. reflexivity. }
  intros h2. rewrite bind_gets.
  change (deviceID (set_devices (platform_devices platform) s)) with (deviceID s).
  destruct (N.of_nat (List.length (platform_devices platform)) <=? deviceID s)%N eqn:E3;
    [apply ends_throw; exact I|].
  do 2 (apply ends_issue_bind; [reflexivity | intro; reflexivity | intros _]).
  destruct (nth_error_in_range _ _ E3) as [chosen Ec]. rewrite Ec.
  rewrite bind_modify. apply ends_issue_bind; [reflexivity | intro; reflexivity | intros _].
  rewrite bind_modify. apply ends_issue_bind; [reflexivity | intro; reflexivity | intros _].
  rewrite bind_modify.
  apply ends_issue_last; [reflexivity | intro; reflexivity |].
  exists platform, chosen. split; [exact En|]. split; [exact Ec|].
  reflexivity.
Qed.

(** X11. When the constructor returns, whatever the installation: the
    selector string named a preconditioner, the chosen platform and
    device exist, and the object holds the arguments, that
    preconditioner, the chosen device as its only device, a context and
    a queue on that device, and [err = CL_SUCCESS]; it is neither
    initialized nor analysed, it has no matrix and its buffers are
    empty. So [initialize] on that object never stops at a null
    pointer. *)
Theorem constructed_object
    (verbosity_ maxit_ : Z) (tolerance_ : R) (platformID_ deviceID_ : N)
    (reorder : ILUReorder) (linsolver : string) (h : list event) :
  let r := openclSolverBackend verbosity_ maxit_ tolerance_ platformID_ deviceID_
                               reorder linsolver h in
  result r = Ret tt ->
  exists kind platform chosen,
    selected linsolver = Some kind /\
    nth_error cl_platforms (N.to_nat platformID_) = Some platform /\
    nth_error (platform_devices platform) (N.to_nat deviceID_) = Some chosen /\
    final r
    = {| verbosity := verbosity_; maxit := maxit_; tolerance := tolerance_;
         platformID := platformID_; deviceID := deviceID_;
         sN := 0; Nb := 0; nnz := 0; nnzb := 0;
         initialized := false; analysis_done := false;
         opencl_ilu_reorder := reorder;
         prec := Some (Preconditioner_create kind verbosity_ reorder);
         devices := [chosen]; context := Some chosen; queue := Some chosen;
         err := CL_SUCCESS; mat := None; rmat := rmat_null; rb := [];
         toOrder := []; fromOrder := [];
         dmem := fun _ => []; imem := fun _ => [] |} /\
    forall N_ nnz_ dim vals rows cols h' w,
      result (initialize N_ nnz_ dim vals rows cols h' (final r)) <> Stuck w.
Proof.
  cbv zeta. unfold openclSolverBackend, openclSolverBackend_body.
  set (s0 := BdaSolver verbosity_ maxit_ tolerance_ platformID_ deviceID_ reorder).
  pose proof (select_preconditioner_run linsolver h s0) as Es.
  destruct (selected linsolver) as [kind|] eqn:Hsel.
  - erewrite bind_Ret by exact Es. cbn [result final].
    intros Hr.
    pose proof (ends_returned _ _ _ _ _ _
                  (ends_try _ _ _ "OpenCL Error: " _ _ (select_device_ends _ _)) Hr) as Hd.
    destruct Hd as (platform & chosen & En & Ec & Ef).
    exists kind, platform, chosen.
    split; [reflexivity|]. split; [exact En|]. split; [exact Ec|].
    rewrite Ef. split; [reflexivity|].
    intros N_ nnz_ dim vals rows cols h' w Hw.
    apply initialize_stops_on_null in Hw. destruct Hw as [Hw|Hw]; discriminate Hw.
  - erewrite bind_Throw by exact Es. cbn [result]. intros Hr. discriminate Hr.
Qed.

Set Implicit Arguments.

End Constructed.

(** ** get_result *)

Section GetResult.
Context {R P W : Type} {SR : Scalar R} {LA : Linalg R}
        {PR : Preconditioner R P} {WM : WellModel R W} {CL : OpenCL}.

Local Abbreviation solver := (Solver R P).

Unset Implicit Arguments.

Lemma ends_enqueue {A} (V : A -> solver -> Prop) (X : cl_Error -> exn -> Prop)
    (E : string -> Prop) e (k : unit -> M solver A) h s :
  raises e = true -> (forall error, X error (cl_error error)) ->
  (forall q, queue s = Some q -> cl_fault h e = None ->
     ends V X E (h ++ [e]) (k tt (h ++ [e])%list s)) ->
  ends V X E h (bind (enqueue e) k h s).
Proof.
  intros He Hx Hk. unfold enqueue. rewrite bind_assoc, bind_gets.
  destruct (queue s) as [q|] eqn:Hq.
  - apply ends_issue_bind; [exact He | exact Hx|].
    intros Hf. apply (Hk q); [reflexivity | exact Hf].
  - exact I.
Qed.

(** The array handed to the caller and the object after [get_result]:
    the first N entries of [d_x], read straight into the caller's array
    when there is no reordering; read into [rb] and permuted by
    [toOrder] into the caller's array when there is one. *)
Definition result_read (s : solver) (x : list R) (s' : solver) : Prop :=
  let device_x := firstn (Z.to_nat (sN s)) (dmem s d_x) in
  if is_NONE (opencl_ilu_reorder s) then s' = s /\ x = device_x
  else
    s' = set_rb device_x s /\
    exists bm, mat s = Some bm /\
      x = reorderBlockedVectorByPattern (bm_Nb bm) device_x (toOrder s).

Lemma get_result_ends h (s : solver) :
  ends (result_read s) raw no_message h (get_result h s).
Proof.
  unfold get_result, result_read. rewrite bind_gets.
  destruct (is_NONE (opencl_ilu_reorder s)) eqn:Ho; cbn [negb].
  - apply ends_enqueue; [reflexivity | intro; reflexivity | intros q _ _].
    apply ends_ret. split; reflexivity.
  - apply ends_enqueue; [reflexivity | intro; reflexivity | intros q _ _].
    rewrite bind_modify, bind_gets.
    change (mat (set_rb (firstn (Z.to_nat (sN s)) (dmem s d_x)) s)) with (mat s).
    destruct (mat s) as [bm|] eqn:Hm; [|apply ends_stuck].
    apply ends_ret. split; [reflexivity|]. exists bm. split; reflexivity.
Qed.

(** X12. [get_result], whatever the installation and the state of the
    object. It makes one call, the read of [d_x]. When it returns
    without a reordering, the caller has the first N entries of [d_x]
    and the object is as it was; with a reordering the caller has those
    entries permuted by [toOrder], and [rb], the host copy of the
    reordered right-hand side, now holds the solution as the device has
    it; nothing else has changed. There is no try block: a [cl::Error]
    raised by the read leaves the function as it is. It throws nothing
    else. *)
Theorem get_result_reads_and_overwrites_rb (h : list event) (s : solver) :
  ends (result_read s) raw no_message h (get_result h s) /\
  (emitted (get_result h s) = [] \/ emitted (get_result h s) = [ReadBuffer d_x]).
Proof.
  split; [apply get_result_ends|].
  unfold get_result. rewrite bind_gets.
  destruct (negb (is_NONE (opencl_ilu_reorder s))).
  - unfold enqueue. rewrite bind_assoc, bind_gets.
    destruct (queue s); [|left; reflexivity].
    right. rewrite bind_issue. destruct (cl_fault h (ReadBuffer d_x)); [reflexivity|].
    cbn [emitted]. rewrite bind_modify, bind_gets.
    destruct (mat _); reflexivity.
  - unfold enqueue. rewrite bind_assoc, bind_gets.
    destruct (queue s); [|left; reflexivity].
    right. rewrite bind_issue. destruct (cl_fault h (ReadBuffer d_x)); reflexivity.
Qed.

Set Implicit Arguments.

End GetResult.

(** ** An object built by the second constructor *)

Section SharedContext.
Context {R P W : Type} {SR : Scalar R} {LA : Linalg R}
        {PR : Preconditioner R P} {WM : WellModel R W} {CL : OpenCL}.

Local Abbreviation solver := (Solver R P).

Unset Implicit Arguments.


Set Implicit Arguments.

End SharedContext.

(** ** The loop when [maxit] exceeds 2^23 *)

Section LoopAboveRange.
Context {R P W : Type} {SR : Scalar R} {LA : Linalg R}
        {PR : Preconditioner R P} {WM : WellModel R W} (CL0 : OpenCL).

Local Abbreviation solver := (Solver R P).

Unset Implicit Arguments.

(** [(float) maxit] is above 2^23 when [maxit] is. *)
Lemma float_of_int_above (z : Z) : 2 ^ 23 < z -> 2 ^ 23 < float_of_int z.
Proof.
  intros Hz. unfold float_of_int.
  assert (Ha : Z.abs z = z) by (apply Z.abs_eq; change (2 ^ 23) with 8388608 in Hz; lia).
  rewrite Ha.
  destruct (z <? 2 ^ 24) eqn:E; [exact Hz|].
  apply Z.ltb_ge in E. cbv zeta.
  assert (Hl : 24 <= Z.log2 z).
  { apply Z.log2_le_pow2; [change (2 ^ 23) with 8388608 in Hz; lia | exact E]. }
  set (e := Z.log2 z - 23) in *.
  assert (He : 1 <= e) by (unfold e; lia).
  assert (Hq : 2 ^ 23 <= Z.shiftr z e).
  { rewrite Z.shiftr_div_pow2 by lia.
    apply Z.div_le_lower_bound; [apply Z.pow_pos_nonneg; lia|].
    rewrite Z.mul_comm, <- Z.pow_add_r by lia.
    replace (23 + e) with (Z.log2 z) by (unfold e; lia).
    apply Z.log2_spec. change (2 ^ 23) with 8388608 in Hz. lia. }
  set (q := Z.shiftr z e) in *.
  assert (Hs : Z.sgn z = 1) by (apply Z.sgn_pos; change (2 ^ 23) with 8388608 in Hz; lia).
  rewrite Hs, Z.mul_1_l.
  assert (Hp : 2 <= 2 ^ e).
  { change 2 with (2 ^ 1) at 1. apply Z.pow_le_mono_r; lia. }
  assert (Hq' : forall q', q <= q' -> 2 ^ 23 < Z.shiftl q' e).
  { intros q' Hqq. rewrite Z.shiftl_mul_pow2 by lia.
    change (2 ^ 23) with 8388608 in *. nia. }
  repeat match goal with |- context [if ?c then _ else _] => destruct c end;
    apply Hq'; lia.
Qed.

Lemma it_lt_maxit_above (h mx : Z) :
  h <= 2 ^ 24 -> 2 ^ 23 < mx -> it_lt_maxit h mx = true.
Proof.
  intros Hh Hm. unfold it_lt_maxit. apply Z.ltb_lt.
  pose proof (float_of_int_above mx Hm) as Hf.
  change (2 ^ 24) with 16777216 in Hh. change (2 ^ 23) with 8388608 in Hf. lia.
Qed.

(** [it += 0.5] never takes the counter above 2^23. *)
Lemma add_half_capped (h : Z) : h <= 2 ^ 24 -> add_half h <= 2 ^ 24.
Proof.
  intros Hh. unfold add_half. destruct (h <? 2 ^ 24) eqn:E; [|exact Hh].
  apply Z.ltb_lt in E. lia.
Qed.

(** The loop is not left, whatever the fuel. *)
Lemma loop_above_range pr (wc : WellContributions W) norm_0 :
  forall (fuel : nat) l h (s : solver),
    prec s = Some pr -> 2 ^ 23 < maxit s -> it l <= 2 ^ 24 ->
    (forall v, rltb (norm v (sN s)) (rmul (tolerance s) norm_0) = false) ->
    exists s' t,
      pbicgstab_loop (CL := no_faults CL0) fuel wc norm_0 l h s
        = Run s' t (Stuck OutOfFuel) /\
      spmv_calls t = (2 * fuel)%nat.
Proof.
  induction fuel as [|fuel IH]; intros l h s Hp Hm Hit Hnever.
  - exists s, []. split; reflexivity.
  - cbn [pbicgstab_loop]. rewrite !bind_gets.
    rewrite it_lt_maxit_above by assumption.
    destruct (first_half_step_returns CL0 wc l h s pr Hp) as (s1 & l1 & E1 & I1 & N1 & F1).
    erewrite bind_Ret by exact E1. cbn [result final emitted].
    destruct (spmv_calls_half_steps (it l) wc) as [C1 C2].
    destruct (frame_maxit _ _ F1) as (M1 & T1 & P1).
    assert (S1 : sN s1 = sN s) by apply F1.
    rewrite N1, S1, Hnever.
    assert (Hp1 : prec s1 = Some pr) by congruence.
    match goal with |- context [bind (second_half_step wc (step_it l1)) _ ?hh s1] =>
      destruct (second_half_step_returns CL0 wc (step_it l1) hh s1 pr Hp1)
        as (s2 & l2 & E2 & I2 & N2 & F2)
    end.
    erewrite bind_Ret by exact E2. cbn [result final emitted].
    pose proof (frame_compose _ _ _ F1 F2) as F12.
    destruct (frame_maxit _ _ F12) as (M2 & T2 & P2).
    assert (S2 : sN s2 = sN s) by apply F12.
    rewrite N2, S2, Hnever.
    assert (Hp2 : prec s2 = Some pr) by congruence.
    assert (Hm2 : 2 ^ 23 < maxit s2) by (rewrite M2; exact Hm).
    assert (Hit2 : it (step_it l2) <= 2 ^ 24).
    { cbn [step_it it]. apply add_half_capped. rewrite I2. cbn [step_it it].
      apply add_half_capped. rewrite I1. exact Hit. }
    assert (Hn2 : forall v, rltb (norm v (sN s2)) (rmul (tolerance s2) norm_0) = false)
      by (intros v; rewrite S2, T2; apply Hnever).
    match goal with |- context [pbicgstab_loop fuel wc norm_0 (step_it l2) ?hh s2] =>
      destruct (IH (step_it l2) hh s2 Hp2 Hm2 Hit2 Hn2) as (s' & t & E & C)
    end.
    rewrite E. cbn [result final emitted].
    eexists s', _. split; [reflexivity|].
    rewrite !spmv_calls_app, C1, C2, C. lia.
Qed.

(** X14. The counter [it] is a [float] and [maxit] is compared as a
    float: from 2^23 on, adding 0.5 to [it] leaves it as it is. So with
    [maxit] above 2^23 = 8388608 the bound on the iterations is void:
    on an installation that raises no error, with the preconditioner
    and the queue in place, when the test on the norm can never pass,
    as with a zero right-hand side, [gpu_pbicgstab] has not returned
    after any number of passes of the loop, each with its two sparse
    products. *)
Theorem iteration_bound_is_void_above_2_23
    (fuel : nat) (wc : WellContributions W) (h : list event) (s : solver)
    (pr : P) (q : Device) :
  prec s = Some pr -> queue s = Some q -> err s = CL_SUCCESS ->
  2 ^ 23 < maxit s ->
  let norm_0 := norm (firstn (Z.to_nat (sN s)) (dmem s d_b)) (sN s) in
  let r := gpu_pbicgstab (CL := no_faults CL0) fuel wc h s in
  (forall v, rltb (norm v (sN s)) (rmul (tolerance s) norm_0) = false) ->
  result r = Stuck OutOfFuel /\ spmv_calls (emitted r) = (2 * fuel)%nat.
Proof.
  intros Hp Hq He Hm. cbv zeta. intros Hnever.
  destruct (gpu_pbicgstab_setup_run CL0 h s Hq He) as (s1 & E & F & _).
  destruct (frame_maxit _ _ F) as (M1 & T1 & P1).
  assert (S1 : sN s1 = sN s) by apply F.
  set (norm_0 := norm (firstn (Z.to_nat (sN s)) (dmem s d_b)) (sN s)) in *.
  set (l0 := {| it := 1; rho := r1; alpha := r1; omega := r1; cur_norm := norm_0 |}).
  destruct (loop_above_range pr wc norm_0 fuel l0 (h ++ setup_trace)%list s1)
    as (s' & t & El & C).
  - congruence.
  - rewrite M1. exact Hm.
  - cbn [it l0]. change (2 ^ 24) with 16777216. lia.
  - intros v. rewrite S1, T1. apply Hnever.
  - unfold gpu_pbicgstab.
    erewrite bind_Ret by exact E. cbn [result final emitted].
    fold l0. erewrite bind_Stuck by exact El. cbn [result emitted].
    split; [reflexivity|].
    rewrite spmv_calls_app, setup_has_no_spmv, C. reflexivity.
Qed.

Set Implicit Arguments.

End LoopAboveRange.

(** ** The further properties on the concrete installation *)

(** The 2 x 2 identity with b = [3; 4], tolerance 1 and maxit 3: the
    first half step solves the system. *)
Lemma converged_flag_in_range_witness :
  let s := toy_ready 3 1 NONE [3; 4] no_wells in
  let norm_0 := norm (firstn (Z.to_nat (sN s)) (dmem s d_b)) (sN s) in
  let r := gpu_pbicgstab (CL := no_faults one_device) 4 no_wells [] s in
  (prec s = Some (toy_prec_ready false) /\ queue s = Some {| device_id := 7 |} /\
   err s = CL_SUCCESS /\ maxit s = 3) /\
  exists res last_norm,
    result r = Ret res /\
    reduction res = rdiv last_norm norm_0 /\
    (spmv_calls (emitted r) <= 2 * Z.to_nat (maxit s))%nat /\
    if converged res then
      rltb last_norm (rmul (tolerance s) norm_0) = true /\
      1 <= iterations res <= 2 * maxit s
    else
      iterations res = 2 * maxit s /\
      (1 <= maxit s -> rltb last_norm (rmul (tolerance s) norm_0) = false).
Proof.
  cbv zeta.
  assert (H : prec (toy_ready 3 1 NONE [3; 4] no_wells) = Some (toy_prec_ready false) /\
              queue (toy_ready 3 1 NONE [3; 4] no_wells) = Some {| device_id := 7 |} /\
              err (toy_ready 3 1 NONE [3; 4] no_wells) = CL_SUCCESS /\
              maxit (toy_ready 3 1 NONE [3; 4] no_wells) = 3)
    by (repeat split; vm_compute; reflexivity).
  split; [exact H|]. destruct H as (Hp & Hq & He & Hm).
  refine (converged_flag_in_range one_device 4 no_wells []
            (toy_ready 3 1 NONE [3; 4] no_wells) (toy_prec_ready false)
            {| device_id := 7 |} Hp Hq He _ _); rewrite Hm; [lia | cbn; lia].
Defined.

(** The same system with b = [0; 0]: [norm_0] is 0 and the integer
    square root that stands for the norm is never negative. *)
Lemma test_never_passes_in_range_witness :
  let s := toy_ready 3 1 NONE [0; 0] no_wells in
  let norm_0 := norm (firstn (Z.to_nat (sN s)) (dmem s d_b)) (sN s) in
  let r := gpu_pbicgstab (CL := no_faults one_device) 4 no_wells [] s in
  (prec s = Some (toy_prec_ready false) /\ queue s = Some {| device_id := 7 |} /\
   err s = CL_SUCCESS /\ maxit s = 3 /\ rmul (tolerance s) norm_0 = 0) /\
  exists res,
    result r = Ret res /\
    converged res = false /\ iterations res = 2 * maxit s /\
    spmv_calls (emitted r) = (2 * Z.to_nat (maxit s))%nat.
Proof.
  cbv zeta.
  set (s := toy_ready 3 1 NONE [0; 0] no_wells).
  assert (H : prec s = Some (toy_prec_ready false) /\
              queue s = Some {| device_id := 7 |} /\
              err s = CL_SUCCESS /\ maxit s = 3 /\
              rmul (tolerance s)
                   (norm (firstn (Z.to_nat (sN s)) (dmem s d_b)) (sN s)) = 0)
    by (repeat split; vm_compute; reflexivity).
  split; [exact H|]. destruct H as (Hp & Hq & He & Hm & Hz).
  refine (test_never_passes_in_range one_device 4 no_wells [] s
            (toy_prec_ready false) {| device_id := 7 |} Hp Hq He _ _ _).
  - rewrite Hm. lia.
  - rewrite Hm. cbn. lia.
  - intros v. rewrite Hz. cbn [rltb norm Z_Scalar Z_Linalg]. apply Z.ltb_ge.
    apply Z.sqrt_nonneg.
Defined.


Lemma later_calls_keep_sizes_and_pattern_witness :
  initialized (toy_ready 3 1 NONE [3; 4] no_wells) = true /\
  sizes_and_pattern
    (toy_ready 3 1 NONE [3; 4] no_wells)
    (final (solve_system (CL := one_device) 5 7 9 3 toy_vals [] [] [5; 6] no_wells
                         empty_result [] (toy_ready 3 1 NONE [3; 4] no_wells))).
Proof.
  assert (Hi : initialized (toy_ready 3 1 NONE [3; 4] no_wells) = true)
    by (vm_compute; reflexivity).
  split; [exact Hi|].
  pose proof (@later_calls_keep_sizes_and_pattern Z toy_prec (nat * Z)%type _ _ _ _
                one_device 5 7 9 3 toy_vals [] [] [5; 6] no_wells empty_result []
                (toy_ready 3 1 NONE [3; 4] no_wells) Hi) as H.
  cbv zeta in H. destruct H as [_ H]. exact H.
Defined.

Lemma constructed_object_witness :
  result (openclSolverBackend (P := toy_prec) (CL := one_device)
            0 3 1 0 0 NONE "ilu0" []) = Ret tt /\
  forall w,
    result (initialize (CL := one_device) 2 4 1 toy_vals toy_rows toy_cols []
              (final (openclSolverBackend (P := toy_prec) (CL := one_device)
                        0 3 1 0 0 NONE "ilu0" [])))
    <> Stuck w.
Proof.
  assert (Hr : result (openclSolverBackend (P := toy_prec) (CL := one_device)
                         0 3 1 0 0 NONE "ilu0" []) = Ret tt)
    by (vm_compute; reflexivity).
  split; [exact Hr|].
  pose proof (@constructed_object Z toy_prec _ _ _ one_device
                0 3 1 0%N 0%N NONE "ilu0" [] Hr) as H.
  cbv zeta in H. destruct H as (kind & platform & chosen & _ & _ & _ & _ & H).
  intros w. apply H.
Defined.

(** The 2 x 2 identity with b = [0; 0] and maxit = 2^23 + 1. *)
Lemma iteration_bound_is_void_above_2_23_witness :
  let s := toy_ready 8388609 1 NONE [0; 0] no_wells in
  let r := gpu_pbicgstab (CL := no_faults one_device) 3 no_wells [] s in
  (prec s = Some (toy_prec_ready false) /\ queue s = Some {| device_id := 7 |} /\
   err s = CL_SUCCESS /\ maxit s = 8388609) /\
  result r = Stuck OutOfFuel /\ spmv_calls (emitted r) = 6%nat.
Proof.
  cbv zeta.
  set (s := toy_ready 8388609 1 NONE [0; 0] no_wells).
  assert (H : prec s = Some (toy_prec_ready false) /\
              queue s = Some {| device_id := 7 |} /\
              err s = CL_SUCCESS /\ maxit s = 8388609 /\
              rmul (tolerance s)
                   (norm (firstn (Z.to_nat (sN s)) (dmem s d_b)) (sN s)) = 0)
    by (repeat split; vm_compute; reflexivity).
  destruct H as (Hp & Hq & He & Hm & Hz).
  split; [repeat split; assumption|].
  refine (iteration_bound_is_void_above_2_23 one_device 3 no_wells [] s
            (toy_prec_ready false) {| device_id := 7 |} Hp Hq He _ _).
  - rewrite Hm. reflexivity.
  - intros v. rewrite Hz. cbn [rltb norm Z_Scalar Z_Linalg]. apply Z.ltb_ge.
    apply Z.sqrt_nonneg.
Defined.
